(** * API usage server: coverage / usage aggregation

    A shallow embedding of [netlify/functions/server.js]: the date-range
    helper [generateDateRange], the summary helper [calculateSummary] and the
    four Express handlers ([/api/summary], [/api/coverage-usage],
    [/api/coverage-trends], [/api/apis]), followed by the properties the
    specification states about them.

    Conventions of the embedding.
    - A JavaScript number is an IEEE 754 binary64 value: Rocq's primitive
      [float].  The built-ins the source calls ([Number], [parseInt],
      [Number.prototype.toFixed], [Date]) follow ECMA-262.
    - A JavaScript string is a [string] of 8-bit code units; code units above
      U+00FF are outside the model.
    - A snapshot file is absent, present with malformed JSON, or present with
      JSON of the documented shape: an object of coverage records, or an array
      of usage records.  Record fields hold JSON primitives ([jsval]).
      Well-formed JSON of another shape is not represented: where a statement
      below gives the answer of a handler for files that parse, it is about
      files of the documented shape.
    - A parsed object inherits from [Object.prototype]: [cov[name]] finds the
      members of the prototype where [cov] has no key of that name.
    - [console.*] output and file-system calls are recorded as a trace of
      [event]s; a handler returns its HTTP response together with the trace.
      A response is the status and the value handed to [res.json], before
      it is serialised.
    - The [while] loop of [generateDateRange] takes fuel; [None] means the fuel
      ran out. *)

From Stdlib Require Import ZArith List String Ascii Bool Lia.
From Stdlib Require Import OrderedTypeEx Sorted Permutation.
From Stdlib Require Import Floats.PrimFloat Floats.SpecFloat Floats.FloatOps.
From Stdlib Require Floats.FloatAxioms.
Import ListNotations.

Open Scope string_scope.
Open Scope Z_scope.

(* ================================================================== *)
(** ** JavaScript strings and numbers *)

Module JS.

Definition number := float.

(** JSON primitives, plus [undefined] for a property that is not there. *)
Inductive jsval : Type :=
| JUndefined
| JNull
| JBool (b : bool)
| JNumber (f : number)
| JString (s : string).

Definition code (c : ascii) : Z := Z.of_nat (nat_of_ascii c).

(** WhiteSpace and LineTerminator code units below U+0100. *)
Definition is_ws (c : ascii) : bool :=
  let n := code c in
  ((9 <=? n) && (n <=? 13)) || (n =? 32) || (n =? 160).

Definition digit_of (radix : Z) (c : ascii) : option Z :=
  let n := code c in
  let v := if (48 <=? n) && (n <=? 57) then n - 48
           else if (97 <=? n) && (n <=? 122) then n - 87
           else if (65 <=? n) && (n <=? 90) then n - 55
           else 99 in
  if v <? radix then Some v else None.

Fixpoint trim_start (s : string) : string :=
  match s with
  | String c r => if is_ws c then trim_start r else s
  | EmptyString => s
  end.

Fixpoint rev_string (s acc : string) : string :=
  match s with
  | EmptyString => acc
  | String c r => rev_string r (String c acc)
  end.

Definition trim_end (s : string) : string :=
  rev_string (trim_start (rev_string s "")) "".

Definition trim (s : string) : string := trim_end (trim_start s).

(** The longest prefix of digits in [radix], as (value, number of digits,
    rest of the string). *)
Fixpoint take_digits (radix : Z) (s : string) (acc : Z) (n : Z)
  : Z * Z * string :=
  match s with
  | String c r =>
      match digit_of radix c with
      | Some d => take_digits radix r (acc * radix + d) (n + 1)
      | None => (acc, n, s)
      end
  | EmptyString => (acc, n, s)
  end.

Definition pos_zero : number := 0%float.
Definition neg_zero : number := (-0)%float.
Definition NaN : number := nan.
Definition Infinity : number := infinity.

(** The Number value for the rational [p / q] ([0 <= p], [0 < q]) with sign
    [neg]: round to nearest, ties to even.  The quotient is taken with 66
    significant bits and a sticky bit, then normalised to binary64. *)
Definition round_ratio (neg : bool) (p q : Z) : number :=
  if p =? 0 then (if neg then neg_zero else pos_zero)
  else
    let k := Z.max 0 (Z.log2 q - Z.log2 p + 66) in
    let n := p * 2 ^ k in
    let m := 2 * (n / q) + (if n mod q =? 0 then 0 else 1) in
    SF2Prim (binary_normalize prec emax (if neg then - m else m) (- k - 1) neg).

(** The Number value for [m * 10 ^ e]; exponents far outside the binary64
    range are settled without computing the power. *)
Definition round_decimal (neg : bool) (m e ndigits : Z) : number :=
  if m =? 0 then (if neg then neg_zero else pos_zero)
  else if 400 <? e then (if neg then (- Infinity)%float else Infinity)
  else if e + ndigits <? -400 then (if neg then neg_zero else pos_zero)
  else if 0 <=? e then round_ratio neg (m * 10 ^ e) 1
  else round_ratio neg m (10 ^ (- e)).

Definition of_Z (z : Z) : number := round_ratio (z <? 0) (Z.abs z) 1.

(** ExponentPart of a StrDecimalLiteral: [None] when what follows the
    mantissa is not an exponent that ends the string. *)
Definition exponent_part (s : string) : option Z :=
  match s with
  | EmptyString => Some 0
  | String c r =>
      if (code c =? 101) || (code c =? 69) then
        let '(neg, r') :=
          match r with
          | String "-" r' => (true, r')
          | String "+" r' => (false, r')
          | _ => (false, r)
          end in
        match take_digits 10 r' 0 0 with
        | (v, n, EmptyString) =>
            if n =? 0 then None else Some (if neg then - v else v)
        | _ => None
        end
      else None
  end.

(** StrUnsignedDecimalLiteral other than [Infinity]. *)
Definition unsigned_decimal (neg : bool) (s : string) : number :=
  let '(i, ni, r) := take_digits 10 s 0 0 in
  let '(m, nf, r') :=
    match r with
    | String "." r1 =>
        let '(m, nf, r2) := take_digits 10 r1 i 0 in (m, nf, r2)
    | _ => (i, 0, r)
    end in
  if ni + nf =? 0 then NaN
  else match exponent_part r' with
       | Some e => round_decimal neg m (e - nf) (ni + nf)
       | None => NaN
       end.

Definition non_decimal (radix : Z) (s : string) : number :=
  match take_digits radix s 0 0 with
  | (v, n, EmptyString) => if n =? 0 then NaN else of_Z v
  | _ => NaN
  end.

(** StringToNumber. *)
Definition StringToNumber (s : string) : number :=
  match trim s with
  | EmptyString => pos_zero
  | String "0" (String c r) as t =>
      if (code c =? 120) || (code c =? 88) then non_decimal 16 r
      else if (code c =? 111) || (code c =? 79) then non_decimal 8 r
      else if (code c =? 98) || (code c =? 66) then non_decimal 2 r
      else unsigned_decimal false t
  | String "-" r =>
      if String.eqb r "Infinity" then (- Infinity)%float
      else unsigned_decimal true r
  | String "+" r =>
      if String.eqb r "Infinity" then Infinity else unsigned_decimal false r
  | t => if String.eqb t "Infinity" then Infinity else unsigned_decimal false t
  end.

(** ToNumber, which is also [Number(v)], on primitives. *)
Definition ToNumber (v : jsval) : number :=
  match v with
  | JUndefined => NaN
  | JNull => pos_zero
  | JBool b => if b then 1%float else pos_zero
  | JNumber f => f
  | JString s => StringToNumber s
  end.

Definition Number (v : jsval) : number := ToNumber v.

(** ToBoolean on a number, and [x || 0]. *)
Definition truthy (x : number) : bool := negb (is_nan x || is_zero x).

Definition or_zero (x : number) : number := if truthy x then x else pos_zero.

Definition digit_char (d : Z) : ascii := ascii_of_nat (Z.to_nat (48 + d)).

(** The last [width] decimal digits of [n], most significant first. *)
Fixpoint digits_fixed (width : nat) (n : Z) (acc : string) : string :=
  match width with
  | O => acc
  | S w => digits_fixed w (n / 10) (String (digit_char (n mod 10)) acc)
  end.

Fixpoint digits_fuel (fuel : nat) (n : Z) (acc : string) : string :=
  match fuel with
  | O => acc
  | S f =>
      let acc' := String (digit_char (n mod 10)) acc in
      if n <? 10 then acc' else digits_fuel f (n / 10) acc'
  end.

(** The decimal representation of [n >= 0], without leading zeros. *)
Definition digits (n : Z) : string :=
  digits_fuel (S (Z.to_nat (Z.log2 n))) n "".

Fixpoint zeros (n : nat) : string :=
  match n with
  | O => ""
  | S m => String "0" (zeros m)
  end.

(** [10 ^ n <= p / q], for any integer [n]. *)
Definition pow10_le (n p q : Z) : bool :=
  if 0 <=? n then 10 ^ n * q <=? p else q <=? p * 10 ^ (- n).

Fixpoint decimal_exponent (fuel : nat) (n p q : Z) : Z :=
  match fuel with
  | O => n
  | S f => if pow10_le n p q then decimal_exponent f (n + 1) p q else n
  end.

(** The exact value of a finite non-zero float, as a ratio. *)
Definition ratio_of (x : number) : Z * Z :=
  match Prim2SF x with
  | S754_finite _ m e =>
      if 0 <=? e then (Zpos m * 2 ^ e, 1) else (Zpos m, 2 ^ (- e))
  | _ => (0, 1)
  end.

(** [s * 10 ^ e] as a ratio. *)
Definition scaled (s e : Z) : Z * Z :=
  if 0 <=? e then (s * 10 ^ e, 1) else (s, 10 ^ (- e)).

Definition roundtrips (x : number) (s e : Z) : bool :=
  let '(p, q) := scaled s e in Leibniz.eqb (round_ratio false p q) x.

(** Number::toString, steps 5: integers [n], [k], [s] with [k] as small as
    possible such that [s * 10 ^ (n - k)] is [x]; of several [s] the closest
    to [x], the even one on a tie.  [x] is finite and positive, [n0] is
    its decimal exponent. *)
Fixpoint shortest (fuel : nat) (k : Z) (x : number) (p q n0 : Z)
  : Z * Z * Z :=
  let '(sp, sq) := scaled 1 (n0 - k) in
  let lo := (p * sq) / (q * sp) in
  let r2 := 2 * ((p * sq) mod (q * sp)) in
  let hi := lo + 1 in
  let ok_lo := roundtrips x lo (n0 - k) in
  let ok_hi := roundtrips x hi (n0 - k) in
  let norm s := if s =? 10 ^ k then (10 ^ (k - 1), k, n0 + 1) else (s, k, n0) in
  let pick_lo := (r2 <? q * sp) || ((r2 =? q * sp) && Z.even lo) in
  match fuel with
  | O => norm lo
  | S f =>
      if ok_lo && ok_hi then (if pick_lo then norm lo else norm hi)
      else if ok_lo then norm lo
      else if ok_hi then norm hi
      else shortest f (k + 1) x p q n0
  end.

Definition take (n : Z) (s : string) : string := substring 0 (Z.to_nat n) s.
Definition drop (n : Z) (s : string) : string :=
  substring (Z.to_nat n) (String.length s - Z.to_nat n) s.

(** Number::toString in radix 10. *)
Definition number_to_string (x : number) : string :=
  if is_nan x then "NaN"
  else if is_zero x then "0"
  else if is_infinity x then (if (x <? 0)%float then "-Infinity" else "Infinity")
  else
    let sign := if (x <? 0)%float then "-" else "" in
    let '(p, q) := ratio_of x in
    let n0 := decimal_exponent 700 ((Z.log2 p - Z.log2 q) * 3 / 10 - 2) p q in
    let '(s, k, n) := shortest 17 1 (abs x) p q n0 in
    let ds := digits s in
    sign ++
    (if (- 5 <=? n) && (n <=? 21) then
       if k <=? n then ds ++ zeros (Z.to_nat (n - k))
       else if 0 <? n then take n ds ++ "." ++ drop n ds
       else "0." ++ zeros (Z.to_nat (- n)) ++ ds
     else
       let e := n - 1 in
       let es := (if 0 <? e then "+" else "-") ++ digits (Z.abs e) in
       if k =? 1 then ds ++ "e" ++ es
       else take 1 ds ++ "." ++ drop 1 ds ++ "e" ++ es).

(** ToString on primitives. *)
Definition ToString (v : jsval) : string :=
  match v with
  | JUndefined => "undefined"
  | JNull => "null"
  | JBool b => if b then "true" else "false"
  | JNumber f => number_to_string f
  | JString s => s
  end.

(** [parseInt(v, 10)]. *)
Definition parseInt10 (v : jsval) : number :=
  let s := trim_start (ToString v) in
  let '(neg, r) :=
    match s with
    | String "-" r => (true, r)
    | String "+" r => (false, r)
    | _ => (false, s)
    end in
  let '(z, n, _) := take_digits 10 r 0 0 in
  if n =? 0 then NaN else round_ratio neg z 1.

(** [x.toFixed(1)]: for a finite [x] below [10 ^ 21] in magnitude, the
    integer [n] for which [n / 10 - |x|] is as close to zero as possible (the
    larger [n] on a tie), printed with one digit after the point. *)
Definition tenths (p q : Z) : Z := (20 * p + q) / (2 * q).

Definition fixed1 (neg : bool) (n : Z) : string :=
  (if neg then "-" else "") ++ digits (n / 10) ++ "." ++ digits (n mod 10).

Definition toFixed1 (x : number) : string :=
  if negb (is_finite x) then number_to_string x
  else
    let '(p, q) := ratio_of x in
    if 10 ^ 21 * q <=? p then number_to_string x
    else fixed1 (x <? 0)%float (tenths p q).

End JS.

(* ================================================================== *)
(** ** The Date object (ECMA-262, section 21.4) *)

Module JSDate.

Definition msPerDay : Z := 86400000.
Definition msPerHour : Z := 3600000.
Definition msPerMinute : Z := 60000.
Definition msPerSecond : Z := 1000.

Definition Day (t : Z) : Z := t / msPerDay.
Definition TimeWithinDay (t : Z) : Z := t mod msPerDay.

Definition is_leap (y : Z) : bool :=
  ((y mod 4 =? 0) && negb (y mod 100 =? 0)) || (y mod 400 =? 0).

Definition DaysInYear (y : Z) : Z := if is_leap y then 366 else 365.

Definition DayFromYear (y : Z) : Z :=
  365 * (y - 1970) + (y - 1969) / 4 - (y - 1901) / 100 + (y - 1601) / 400.

Definition TimeFromYear (y : Z) : Z := msPerDay * DayFromYear y.

(** The largest [y] such that [TimeFromYear y <= t]: an estimate from the
    mean year length, corrected by at most one year either way. *)
Definition YearFromTime (t : Z) : Z :=
  let d := Day t in
  let y := 1970 + (400 * d) / 146097 in
  if DayFromYear (y + 1) <=? d then y + 1
  else if DayFromYear y <=? d then y
  else y - 1.

Definition InLeapYear (t : Z) : Z :=
  if is_leap (YearFromTime t) then 1 else 0.

Definition DayWithinYear (t : Z) : Z := Day t - DayFromYear (YearFromTime t).

Definition MonthFromTime (t : Z) : Z :=
  let d := DayWithinYear t in
  let l := InLeapYear t in
  if d <? 31 then 0
  else if d <? 59 + l then 1
  else if d <? 90 + l then 2
  else if d <? 120 + l then 3
  else if d <? 151 + l then 4
  else if d <? 181 + l then 5
  else if d <? 212 + l then 6
  else if d <? 243 + l then 7
  else if d <? 273 + l then 8
  else if d <? 304 + l then 9
  else if d <? 334 + l then 10
  else 11.

Definition DateFromTime (t : Z) : Z :=
  let d := DayWithinYear t in
  let l := InLeapYear t in
  match MonthFromTime t with
  | 0 => d + 1
  | 1 => d - 30
  | 2 => d - 58 - l
  | 3 => d - 89 - l
  | 4 => d - 119 - l
  | 5 => d - 150 - l
  | 6 => d - 180 - l
  | 7 => d - 211 - l
  | 8 => d - 242 - l
  | 9 => d - 272 - l
  | 10 => d - 303 - l
  | _ => d - 333 - l
  end.

Definition HourFromTime (t : Z) : Z := (t / msPerHour) mod 24.
Definition MinFromTime (t : Z) : Z := (t / msPerMinute) mod 60.
Definition SecFromTime (t : Z) : Z := (t / msPerSecond) mod 60.
Definition msFromTime (t : Z) : Z := t mod msPerSecond.

(** Days from the start of a year to the first of month [mn] (0-based). *)
Definition days_before_month (leap : bool) (mn : Z) : Z :=
  let l := if leap then 1 else 0 in
  match mn with
  | 0 => 0
  | 1 => 31
  | 2 => 59 + l
  | 3 => 90 + l
  | 4 => 120 + l
  | 5 => 151 + l
  | 6 => 181 + l
  | 7 => 212 + l
  | 8 => 243 + l
  | 9 => 273 + l
  | 10 => 304 + l
  | _ => 334 + l
  end.

(** [MakeDay(year, month, date)]: the day number of the first of the month
    that [month] names, counted from [year], plus [date - 1]. *)
Definition MakeDay (year month date : Z) : Z :=
  let ym := year + month / 12 in
  let mn := month mod 12 in
  DayFromYear ym + days_before_month (is_leap ym) mn + date - 1.

Definition MakeTime (hour min sec ms : Z) : Z :=
  hour * msPerHour + min * msPerMinute + sec * msPerSecond + ms.

Definition MakeDate (day time : Z) : Z := day * msPerDay + time.

(** A time value: [None] is NaN. *)
Definition time_value := option Z.

Definition TimeClip (t : Z) : time_value :=
  if 8640000000000000 <? Z.abs t then None else Some t.

(** What the host supplies: the offset of local time from UTC
    ([LocalTZA(t, isUTC)], in milliseconds), and what [Date.parse] makes of a
    string that is not in the date-only form [YYYY-MM-DD] (other ISO forms
    and the implementation-defined fallback). *)
Record host : Type := {
  LocalTZA : Z -> bool -> Z;
  parse_other : string -> time_value
}.

Definition LocalTime (h : host) (t : Z) : Z := t + LocalTZA h t true.
Definition UTC (h : host) (t : Z) : Z := t - LocalTZA h t false.

(** Days of month [m] (1 to 12) in year [y]. *)
Definition days_in_month (y m : Z) : Z :=
  match m with
  | 1 | 3 | 5 | 7 | 8 | 10 | 12 => 31
  | 4 | 6 | 9 | 11 => 30
  | 2 => if is_leap y then 29 else 28
  | _ => 0
  end.

Definition digit (c : ascii) : option Z := JS.digit_of 10 c.

(** A run of exactly [n] decimal digits at the head of [s]. *)
Fixpoint read_digits (n : nat) (s : string) (acc : Z) : option (Z * string) :=
  match n with
  | O => Some (acc, s)
  | S m =>
      match s with
      | String c r =>
          match digit c with
          | Some d => read_digits m r (acc * 10 + d)
          | None => None
          end
      | EmptyString => None
      end
  end.

(** The date-only form [YYYY-MM-DD] of the Date Time String Format, naming a
    day of the calendar: (year, month 1..12, day). *)
Definition parse_ymd (s : string) : option (Z * Z * Z) :=
  match read_digits 4 s 0 with
  | Some (y, String "-" r1) =>
      match read_digits 2 r1 0 with
      | Some (m, String "-" r2) =>
          match read_digits 2 r2 0 with
          | Some (d, EmptyString) =>
              if (1 <=? m) && (m <=? 12) && (1 <=? d) && (d <=? days_in_month y m)
              then Some (y, m, d) else None
          | _ => None
          end
      | _ => None
      end
  | _ => None
  end.

(** [Date.parse]: a date-only string is UTC midnight of that day. *)
Definition parse (h : host) (s : string) : time_value :=
  match parse_ymd s with
  | Some (y, m, d) => TimeClip (MakeDate (MakeDay y (m - 1) d) 0)
  | None => parse_other h s
  end.

(** [new Date(s)] for a string [s]: the time value of the new object. *)
Definition new_Date (h : host) (s : string) : time_value := parse h s.

(** [d.getDate()] on a valid time value. *)
Definition getDate (h : host) (t : Z) : Z := DateFromTime (LocalTime h t).

(** [d.setDate(dt)] on a valid time value: the new time value. *)
Definition setDate (h : host) (t : Z) (dt : Z) : time_value :=
  let t' := LocalTime h t in
  let newDate :=
    MakeDate (MakeDay (YearFromTime t') (MonthFromTime t') dt) (TimeWithinDay t') in
  TimeClip (UTC h newDate).

Definition pad (width : nat) (n : Z) : string := JS.digits_fixed width n "".

(** The year of the Date Time String Format: four digits, or a sign and six
    digits outside 0..9999. *)
Definition year_string (y : Z) : string :=
  if (0 <=? y) && (y <=? 9999) then pad 4 y
  else (if y <? 0 then "-" else "+") ++ pad 6 (Z.abs y).

(** [d.toISOString()] on a valid time value. *)
Definition toISOString (t : Z) : string :=
  year_string (YearFromTime t) ++ "-" ++ pad 2 (MonthFromTime t + 1) ++ "-" ++
  pad 2 (DateFromTime t) ++ "T" ++ pad 2 (HourFromTime t) ++ ":" ++
  pad 2 (MinFromTime t) ++ ":" ++ pad 2 (SecFromTime t) ++ "." ++
  pad 3 (msFromTime t) ++ "Z".

(** [s.split("T")[0]]: what comes before the first [T]. *)
Fixpoint before_T (s : string) : string :=
  match s with
  | EmptyString => EmptyString
  | String c r => if Ascii.eqb c "T" then EmptyString else String c (before_T r)
  end.

End JSDate.

(* ================================================================== *)
(** ** The server *)

Module Server.

Import JS JSDate.
Local Open Scope list_scope.

(** *** Snapshot data *)

(** One entry of a coverage file: [{ full_size, covered_lines, apidoc }]. *)
Record CoverageRecord : Type := {
  full_size : jsval;
  covered_lines : jsval;
  apidoc : jsval
}.

(** One element of a usage file: [{ api_name, usage_count, total_clients }]. *)
Record UsageRecord : Type := {
  api_name : jsval;
  usage_count : jsval;
  total_clients : jsval
}.

(** A parsed coverage file is an object keyed by API name: its own keys with
    their values, in the order [Object.keys] enumerates them.  A parsed usage
    file is an array. *)
Definition coverage_map := list (string * CoverageRecord).
Definition usage_list := list UsageRecord.

Definition Object_keys (cov : coverage_map) : list string := map fst cov.

(** The own property [name] of [cov]. *)
Fixpoint get_own (cov : coverage_map) (name : string) : option CoverageRecord :=
  match cov with
  | [] => None
  | (k, v) :: rest => if String.eqb k name then Some v else get_own rest name
  end.

(** The property names of [Object.prototype], which every parsed object
    inherits. *)
Definition Object_prototype_member (name : string) : bool :=
  existsb (String.eqb name)
    ["constructor"; "__defineGetter__"; "__defineSetter__"; "hasOwnProperty";
     "__lookupGetter__"; "__lookupSetter__"; "isPrototypeOf";
     "propertyIsEnumerable"; "toString"; "valueOf"; "__proto__";
     "toLocaleString"].

(** What [cov[name]] is for an inherited name: a built-in function (the
    prototype object itself for [__proto__]).  It is truthy, and the three
    properties the handlers read from it are [undefined]. *)
Definition inherited_member : CoverageRecord :=
  {| full_size := JUndefined; covered_lines := JUndefined; apidoc := JUndefined |}.

(** [cov[name]]: the own property, else the member inherited from
    [Object.prototype]; [None] is [undefined]. *)
Definition get (cov : coverage_map) (name : string) : option CoverageRecord :=
  match get_own cov name with
  | Some v => Some v
  | None => if Object_prototype_member name then Some inherited_member else None
  end.

(** [u.api_name === name] for a string [name]. *)
Definition strict_eq (v : jsval) (name : string) : bool :=
  match v with
  | JString s => String.eqb s name
  | _ => false
  end.

(** [use.find((u) => u.api_name === name)]: [None] is [undefined]. *)
Definition find_usage (use : usage_list) (name : string) : option UsageRecord :=
  find (fun u => strict_eq (api_name u) name) use.

(** [(api.covered_lines / api.full_size) * 100]. *)
Definition percent (api : CoverageRecord) : number :=
  ((ToNumber (covered_lines api) / ToNumber (full_size api)) * 100)%float.

(** *** The snapshot directory *)

(** What a file holds, as [JSON.parse] sees it. *)
Inductive file (A : Type) : Type :=
| Malformed (message : string)
| Json (a : A).

Arguments Malformed {A} message.
Arguments Json {A} a.

(** [dataDir]: the files [api_coverage_<date>.json] and
    [api_usage_<date>.json], by the text of [<date>]. *)
Record store : Type := {
  coverage_file : string -> option (file coverage_map);
  usage_file : string -> option (file usage_list)
}.

(** *** Effects *)

Inductive exn : Type :=
| SyntaxError (message : string)
| TypeError (message : string)
| SystemError (message : string).

Definition message_of (e : exn) : string :=
  match e with
  | SyntaxError m | TypeError m | SystemError m => m
  end.

Inductive kind : Type := Coverage | Usage.

Inductive event : Type :=
| ExistsSync (k : kind) (date : string)
| ReadFileSync (k : kind) (date : string)
| ConsoleLog (text : string)
| ConsoleWarn (date : string) (message : string)
| ConsoleError (e : exn).

(** The events that touch the snapshot directory. *)
Definition is_io (ev : event) : bool :=
  match ev with
  | ExistsSync _ _ | ReadFileSync _ _ => true
  | _ => false
  end.

Inductive result (A : Type) : Type :=
| Return (a : A)
| Throw (e : exn).

Arguments Return {A} a.
Arguments Throw {A} e.

(** A computation over the local variables [S] of a handler and the trace:
    both survive an exception. *)
Definition M (S A : Type) : Type := S * list event -> result A * (S * list event).

Definition ret {S A} (a : A) : M S A := fun s => (Return a, s).

Definition bind {S A B} (m : M S A) (f : A -> M S B) : M S B :=
  fun s =>
    match m s with
    | (Return a, s') => f a s'
    | (Throw e, s') => (Throw e, s')
    end.

Definition throw {S A} (e : exn) : M S A := fun s => (Throw e, s).

Definition try_catch {S A} (m : M S A) (handler : exn -> M S A) : M S A :=
  fun s =>
    match m s with
    | (Return a, s') => (Return a, s')
    | (Throw e, s') => handler e s'
    end.

Definition emit {S} (ev : event) : M S unit :=
  fun s => (Return tt, (fst s, snd s ++ [ev])).

Definition modify {S} (f : S -> S) : M S unit :=
  fun s => (Return tt, (f (fst s), snd s)).

Definition read {S} : M S S := fun s => (Return (fst s), s).

Notation "x <- m ;; k" := (bind m (fun x => k))
  (at level 61, m at next level, right associativity).
Notation "m ;;; k" := (bind m (fun _ => k))
  (at level 61, right associativity).

Definition when {S} (b : bool) (m : M S unit) : M S unit :=
  if b then m else ret tt.

(** [for (const x of xs) body]. *)
Fixpoint for_of {S A} (xs : list A) (body : A -> M S unit) : M S unit :=
  match xs with
  | [] => ret tt
  | x :: rest => body x ;;; for_of rest body
  end.

(** [fs.existsSync(path)]. *)
Definition existsSync {S A} (k : kind) (f : string -> option (file A))
  (date : string) : M S bool :=
  emit (ExistsSync k date) ;;;
  ret (match f date with Some _ => true | None => false end).

(** [JSON.parse(fs.readFileSync(path, "utf8"))]. *)
Definition readJson {S A} (k : kind) (f : string -> option (file A))
  (date : string) : M S A :=
  emit (ReadFileSync k date) ;;;
  match f date with
  | None => throw (SystemError "ENOENT: no such file or directory")
  | Some (Malformed m) => throw (SyntaxError m)
  | Some (Json a) => ret a
  end.

(** *** generateDateRange *)

(** What [generateDateRange] returns: the [Error] object, or the array. *)
Inductive range : Type :=
| ErrorObject (message : string)
| Dates (dates : list string).

(** The [while] loop, on the time values of [startDate] and [endDate]. *)
Fixpoint range_loop (h : host) (fuel : nat) (startDate endDate : Z)
  (dates : list string) : option (list string) :=
  match fuel with
  | O => None
  | S fuel' =>
      if startDate <=? endDate then
        let iso := before_T (toISOString startDate) in
        let dates' := dates ++ [iso] in
        match setDate h startDate (getDate h startDate + 1) with
        | Some t => range_loop h fuel' t endDate dates'
        | None => Some dates'
        end
      else Some dates
  end.

Definition generateDateRange (h : host) (fuel : nat) (start end_ : string)
  : option range :=
  match new_Date h start, new_Date h end_ with
  | Some startDate, Some endDate =>
      option_map Dates (range_loop h fuel startDate endDate [])
  | _, _ => Some (ErrorObject "Invalid start or end date")
  end.

(** *** calculateSummary *)

Record Summary : Type := {
  totalAPIs : nat;
  avgCoverage : number;
  totalCalls : number
}.

Definition zero_summary : Summary :=
  {| totalAPIs := 0; avgCoverage := pos_zero; totalCalls := pos_zero |}.

(** [allApiNames.add(n)] on a [Set], kept in insertion order. *)
Definition Set_add (names : list string) (n : string) : list string :=
  if existsb (String.eqb n) names then names else names ++ [n].

Definition collect_names (allCoverage : list coverage_map) : list string :=
  fold_left (fun names cov => fold_left Set_add (Object_keys cov) names)
    allCoverage [].

(** The running [totalCoverage], [totalCalls] and [count]. *)
Record totals : Type := {
  totalCoverage : number;
  calls : number;
  count : nat
}.

(** The body of the inner loop, for one [name] of [allApiNames]. *)
Definition summary_name (cov : coverage_map) (use : option usage_list)
  (t : totals) (name : string) : totals :=
  let api := get cov name in
  let usage :=
    match use with
    | Some u => find_usage u name
    | None => None
    end in
  let t1 :=
    match api with
    | Some a =>
        {| totalCoverage := (totalCoverage t + percent a)%float;
           calls := calls t;
           count := S (count t) |}
    | None => t
    end in
  match usage with
  | Some u =>
      {| totalCoverage := totalCoverage t1;
         calls := (calls t1 + or_zero (parseInt10 (usage_count u)))%float;
         count := count t1 |}
  | None => t1
  end.

(** The outer loop from index [i]: [covs] is what is left of [allCoverage]. *)
Fixpoint summary_loop (names : list string) (covs : list coverage_map)
  (allUsage : list usage_list) (i : nat) (t : totals) : totals :=
  match covs with
  | [] => t
  | cov :: rest =>
      let use := nth_error allUsage i in
      summary_loop names rest allUsage (S i)
        (fold_left (summary_name cov use) names t)
  end.

(** A count ([count], [apiNames.length]) as a Number; exact below [2 ^ 53]. *)
Definition of_nat (n : nat) : number := of_Z (Z.of_nat n).

Arguments of_nat : simpl never.
Arguments percent : simpl never.

Definition calculateSummary (allCoverage : list coverage_map)
  (allUsage : list usage_list) : Summary :=
  match allCoverage with
  | [] => zero_summary
  | _ =>
      let allApiNames := collect_names allCoverage in
      let t := summary_loop allApiNames allCoverage allUsage 0
                 {| totalCoverage := pos_zero; calls := pos_zero; count := 0 |} in
      {| totalAPIs := List.length allApiNames;
         avgCoverage :=
           match count t with
           | O => pos_zero
           | S _ => (totalCoverage t / of_nat (count t))%float
           end;
         totalCalls := calls t |}
  end.

(** *** The handlers *)

(** What a handler sends: [res.json(body)], or
    [res.status(status).json({ error })]. *)
Inductive response (A : Type) : Type :=
| Ok (body : A)
| Failed (status : Z) (error : string).

Arguments Ok {A} body.
Arguments Failed {A} status error.

(** [!q] for a query parameter: it is not there, or it is empty. *)
Definition missing (q : option string) : bool :=
  match q with
  | None => true
  | Some s => String.eqb s ""
  end.

(** The [try { ... } catch (err) { console.error(err); res.status(500)... }]
    around a handler, run from the initial locals. *)
Definition handle {S A} (init : S) (m : M S (response A))
  : response A * list event :=
  match m (init, []) with
  | (Return r, (_, t)) => (r, t)
  | (Throw e, (_, t)) =>
      (Failed 500 "Internal server error", t ++ [ConsoleError e])
  end.

(** [for (const date of inRange)]: an [Error] object is not iterable. *)
Definition for_of_range {S} (inRange : range) (body : string -> M S unit)
  : M S unit :=
  match inRange with
  | ErrorObject _ => throw (TypeError "inRange is not iterable")
  | Dates dates => for_of dates body
  end.

(** [exists(path) ? JSON.parse(read(path)) : empty]. *)
Definition load {S A} (k : kind) (f : string -> option (file A))
  (date : string) (empty : A) : M S A :=
  e <- existsSync k f date ;;
  if e then readJson k f date else ret empty.

(** [const api = cov[name]] followed by a property read of [api]. *)
Definition item {S} (cov : coverage_map) (name : string) : M S CoverageRecord :=
  match get cov name with
  | Some api => ret api
  | None => throw (TypeError "Cannot read properties of undefined")
  end.

(** **** GET /api/summary *)

Record summary_vars : Type := {
  allCoverage : list coverage_map;
  allUsage : list usage_list
}.

Definition push_coverage (cov : coverage_map) (v : summary_vars) : summary_vars :=
  {| allCoverage := allCoverage v ++ [cov]; allUsage := allUsage v |}.

Definition push_usage (use : usage_list) (v : summary_vars) : summary_vars :=
  {| allCoverage := allCoverage v; allUsage := allUsage v ++ [use] |}.

(** The body of the loop over [inRange], with its own [try]/[catch]. *)
Definition summary_day (fs : store) (date : string) : M summary_vars unit :=
  try_catch
    (c <- existsSync Coverage (coverage_file fs) date ;;
     when c (cov <- readJson Coverage (coverage_file fs) date ;;
             modify (push_coverage cov)) ;;;
     u <- existsSync Usage (usage_file fs) date ;;
     when u (use <- readJson Usage (usage_file fs) date ;;
             modify (push_usage use)))
    (fun err => emit (ConsoleWarn date (message_of err))).

(** The handler from the loop on.  [calculateSummary] returns an object,
    which is truthy, so the [|| { ... }] after the call never applies. *)
Definition summary_from (fs : store) (inRange : range)
  : M summary_vars (response Summary) :=
  for_of_range inRange (summary_day fs) ;;;
  v <- read ;;
  ret (Ok (calculateSummary (allCoverage v) (allUsage v))).

Definition request_log : event := ConsoleLog "Request received at backend!".

(** The handler.  [generateDateRange] has no effect of its own, so it is
    evaluated ahead of the effectful part; [None] is its loop out of fuel. *)
Definition api_summary (h : host) (fuel : nat) (fs : store)
  (start end_ : option string) : option (response Summary * list event) :=
  match start, end_ with
  | Some s, Some e =>
      if missing start || missing end_ then
        Some (Failed 400 "Missing start or end date", [request_log])
      else
        match generateDateRange h fuel s e with
        | None => None
        | Some inRange =>
            Some (handle {| allCoverage := []; allUsage := [] |}
                    (emit request_log ;;; summary_from fs inRange))
        end
  | _, _ => Some (Failed 400 "Missing start or end date", [request_log])
  end.

(** **** GET /api/coverage-usage *)

Record ScatterPoint : Type := {
  name : string;
  coverage : number;
  usage : number
}.

Definition scatter_point (use : usage_list) (n : string) (api : CoverageRecord)
  : ScatterPoint :=
  let usageItem := find_usage use n in
  {| name := n;
     coverage := percent api;
     usage := match usageItem with
              | Some u => Number (usage_count u)
              | None => pos_zero
              end |}.

Definition coverage_usage_body (fs : store) (date : string)
  : M (list ScatterPoint) (response (list ScatterPoint)) :=
  cov <- load Coverage (coverage_file fs) date [] ;;
  use <- load Usage (usage_file fs) date [] ;;
  for_of (Object_keys cov)
    (fun n => api <- item cov n ;;
              modify (fun scatterData => scatterData ++ [scatter_point use n api])) ;;;
  scatterData <- read ;;
  ret (Ok scatterData).

Definition api_coverage_usage (fs : store) (date : option string)
  : response (list ScatterPoint) * list event :=
  match date with
  | Some d =>
      if missing date then (Failed 400 "Missing date", [])
      else handle [] (coverage_usage_body fs d)
  | None => (Failed 400 "Missing date", [])
  end.

(** **** GET /api/coverage-trends *)

Record TrendPoint : Type := {
  date : string;
  trend_avgCoverage : number
}.

(** [apiNames.forEach((name) => { totalCoverage += ... })], from 0. *)
Fixpoint sum_percent {S} (cov : coverage_map) (apiNames : list string)
  (totalCoverage : number) : M S number :=
  match apiNames with
  | [] => ret totalCoverage
  | n :: rest =>
      api <- item cov n ;;
      sum_percent cov rest (totalCoverage + percent api)%float
  end.

(** The body of the loop over [inRange]; [ret tt] early is [continue]. *)
Definition trends_day (fs : store) (d : string) : M (list TrendPoint) unit :=
  e <- existsSync Coverage (coverage_file fs) d ;;
  if negb e then ret tt
  else
    cov <- readJson Coverage (coverage_file fs) d ;;
    let apiNames := Object_keys cov in
    if Nat.eqb (List.length apiNames) 0 then ret tt
    else
      totalCoverage <- sum_percent cov apiNames pos_zero ;;
      modify (fun trends =>
        trends ++ [{| date := d;
                      trend_avgCoverage :=
                        (totalCoverage / of_nat (List.length apiNames))%float |}]).

Definition trends_from (fs : store) (inRange : range)
  : M (list TrendPoint) (response (list TrendPoint)) :=
  for_of_range inRange (trends_day fs) ;;;
  trends <- read ;;
  ret (Ok trends).

Definition api_coverage_trends (h : host) (fuel : nat) (fs : store)
  (start end_ : option string)
  : option (response (list TrendPoint) * list event) :=
  match start, end_ with
  | Some s, Some e =>
      if missing start || missing end_ then
        Some (Failed 400 "Missing start or end date", [])
      else
        match generateDateRange h fuel s e with
        | None => None
        | Some inRange => Some (handle [] (trends_from fs inRange))
        end
  | _, _ => Some (Failed 400 "Missing start or end date", [])
  end.

(** **** GET /api/apis *)

Record Row : Type := {
  row_name : string;
  row_coverage : string;
  row_usage : number;
  totalClients : number;
  row_apidoc : jsval;
  fullSize : jsval;
  coveredLines : jsval
}.

Definition row (use : usage_list) (n : string) (api : CoverageRecord) : Row :=
  let usageItem := find_usage use n in
  let usageCount :=
    match usageItem with
    | Some u => Number (usage_count u)
    | None => pos_zero
    end in
  let totalClients :=
    match usageItem with
    | Some u => Number (total_clients u)
    | None => pos_zero
    end in
  {| row_name := n;
     row_coverage := toFixed1 (percent api);
     row_usage := usageCount;
     totalClients := totalClients;
     row_apidoc := apidoc api;
     fullSize := full_size api;
     coveredLines := covered_lines api |}.

(** [xs.map(f)] for a callback that may throw. *)
Fixpoint map_M {S A B} (f : A -> M S B) (xs : list A) : M S (list B) :=
  match xs with
  | [] => ret []
  | x :: rest => y <- f x ;; ys <- map_M f rest ;; ret (y :: ys)
  end.

Definition apis_body (fs : store) (d : string) : M unit (response (list Row)) :=
  cov <- load Coverage (coverage_file fs) d [] ;;
  use <- load Usage (usage_file fs) d [] ;;
  data <- map_M (fun n => api <- item cov n ;; ret (row use n api))
            (Object_keys cov) ;;
  ret (Ok data).

Definition api_apis (fs : store) (d : option string)
  : response (list Row) * list event :=
  match d with
  | Some d' =>
      if missing d then (Failed 400 "Missing date", [])
      else handle tt (apis_body fs d')
  | None => (Failed 400 "Missing date", [])
  end.

End Server.

(* ================================================================== *)
(** ** Hosts and snapshot directories used below *)

Module Scenario.

Import JS JSDate Server.
Local Open Scope list_scope.

(** A host that keeps UTC and parses nothing but [YYYY-MM-DD]. *)
Definition utc : host :=
  {| LocalTZA := fun _ _ => 0; parse_other := fun _ => None |}.

(** A host whose local time is always [offset] milliseconds ahead of UTC. *)
Definition fixed_offset (offset : Z) (other : string -> time_value) : host :=
  {| LocalTZA := fun _ _ => offset; parse_other := other |}.

Definition est : Z := - 5 * msPerHour.
Definition edt : Z := - 4 * msPerHour.

(** US Eastern time with the two transitions of 2024: daylight saving time
    from 2024-03-10 07:00 UTC (02:00 EST) to 2024-11-03 06:00 UTC (02:00 EDT).
    A local time that is skipped or repeated takes the offset in force before
    the transition. *)
Definition us_eastern : host :=
  {| LocalTZA := fun t isUTC =>
       if isUTC then
         if (MakeDate (MakeDay 2024 2 10) (MakeTime 7 0 0 0) <=? t)
            && (t <? MakeDate (MakeDay 2024 10 3) (MakeTime 6 0 0 0))
         then edt else est
       else
         if (MakeDate (MakeDay 2024 2 10) (MakeTime 3 0 0 0) <=? t)
            && (t <? MakeDate (MakeDay 2024 10 3) (MakeTime 2 0 0 0))
         then edt else est;
     parse_other := fun _ => None |}.

Definition coverage_of (full covered : Z) : CoverageRecord :=
  {| full_size := JNumber (of_Z full);
     covered_lines := JNumber (of_Z covered);
     apidoc := JString "doc" |}.

Definition usage_of (n : string) (count : jsval) : UsageRecord :=
  {| api_name := JString n; usage_count := count; total_clients := JNumber (of_Z 1) |}.

Definition int (z : Z) : jsval := JNumber (of_Z z).

(** A directory given by the list of its files. *)
Fixpoint file_at {A} (files : list (string * file A)) (d : string)
  : option (file A) :=
  match files with
  | [] => None
  | (k, f) :: rest => if String.eqb k d then Some f else file_at rest d
  end.

Definition directory (cov : list (string * file coverage_map))
  (use : list (string * file usage_list)) : store :=
  {| coverage_file := file_at cov; usage_file := file_at use |}.

(** Day 1 has coverage and usage for [A]; day 2 has usage for [A] and no
    coverage file. *)
Definition two_days : store :=
  directory
    [("2024-01-01", Json [("A", coverage_of 100 50)])]
    [("2024-01-01", Json [usage_of "A" (int 10)]);
     ("2024-01-02", Json [usage_of "A" (int 5)])].

(** As [two_days], with a coverage file for day 2 that holds the empty
    object. *)
Definition two_days_empty_object : store :=
  directory
    [("2024-01-01", Json [("A", coverage_of 100 50)]);
     ("2024-01-02", Json [])]
    [("2024-01-01", Json [usage_of "A" (int 10)]);
     ("2024-01-02", Json [usage_of "A" (int 5)])].

(** Day 1 has usage for [A] and no coverage file; day 2 has coverage and
    usage for [A]. *)
Definition coverage_on_second_day : store :=
  directory
    [("2024-01-02", Json [("A", coverage_of 100 50)])]
    [("2024-01-01", Json [usage_of "A" (int 10)]);
     ("2024-01-02", Json [usage_of "A" (int 5)])].

(** One day with coverage for [A] and no usage file. *)
Definition coverage_only : store :=
  directory [("2024-01-01", Json [("A", coverage_of 100 50)])] [].

(** Five days of coverage and usage for [A]; the coverage file of the third
    day is not JSON. *)
Definition third_day_malformed : store :=
  directory
    [("2024-01-01", Json [("A", coverage_of 100 50)]);
     ("2024-01-02", Json [("A", coverage_of 100 50)]);
     ("2024-01-03", Malformed "Unexpected end of JSON input");
     ("2024-01-04", Json [("A", coverage_of 100 50)]);
     ("2024-01-05", Json [("A", coverage_of 100 50)])]
    [("2024-01-01", Json [usage_of "A" (int 1)]);
     ("2024-01-02", Json [usage_of "A" (int 2)]);
     ("2024-01-03", Json [usage_of "A" (int 4)]);
     ("2024-01-04", Json [usage_of "A" (int 8)]);
     ("2024-01-05", Json [usage_of "A" (int 16)])].


(** One day with a record of size zero, and a day with usage only. *)
Definition zero_size : store :=
  directory
    [("2024-01-01",
      Json [("A", coverage_of 0 0); ("B", coverage_of 0 7); ("C", coverage_of 200 50)])]
    [("2024-01-01", Json [usage_of "C" (int 3)]);
     ("2024-01-02", Json [usage_of "A" (int 9)])].

(** No coverage file at all, usage with positive counts every day. *)
Definition usage_only : store :=
  directory []
    [("2024-01-01", Json [usage_of "A" (int 10)]);
     ("2024-01-02", Json [usage_of "A" (int 5); usage_of "B" (int 7)])].

Definition empty_directory : store := directory [] [].

(** One day with coverage for [A]; its usage file is not JSON. *)
Definition usage_malformed : store :=
  directory
    [("2024-01-01", Json [("A", coverage_of 100 50)])]
    [("2024-01-01", Malformed "Unexpected end of JSON input")].

(** Day 1 has coverage for an API named [toString]; day 2 has coverage for
    [B] only. *)
Definition prototype_name : store :=
  directory
    [("2024-01-01", Json [("toString", coverage_of 100 50)]);
     ("2024-01-02", Json [("B", coverage_of 100 50)])]
    [].

End Scenario.

(* ================================================================== *)
(** ** Properties stated by the specification *)

Module Spec.

Import JS JSDate Server.
Local Open Scope list_scope.

(** No file of day [d] is malformed JSON. *)
Definition parses (fs : store) (d : string) : Prop :=
  (forall m, coverage_file fs d <> Some (Malformed m)) /\
  (forall m, usage_file fs d <> Some (Malformed m)).

(** Day [d] loads no coverage: the file is absent, or it is malformed. *)
Definition no_coverage (fs : store) (d : string) : Prop :=
  coverage_file fs d = None \/ exists m, coverage_file fs d = Some (Malformed m).

(** The coverage map of day [d] as the Snapshot Loader gives it: empty when
    the resource is absent or does not parse. *)
Definition coverage_of_day (fs : store) (d : string) : coverage_map :=
  match coverage_file fs d with
  | Some (Json cov) => cov
  | _ => []
  end.

Definition usage_of_day (fs : store) (d : string) : usage_list :=
  match usage_file fs d with
  | Some (Json use) => use
  | _ => []
  end.

(** Every coverage file that parses is an object: its keys are distinct. *)
Definition objects (fs : store) : Prop :=
  forall d cov, coverage_file fs d = Some (Json cov) -> NoDup (Object_keys cov).

(** The mean of a list of numbers, summed from the left. *)
Definition mean (xs : list number) : number :=
  (fold_left PrimFloat.add xs pos_zero / of_nat (List.length xs))%float.

(** CoverageTrends in the words of the specification: for each day of the
    range with a non-empty coverage map, the day and the mean of its per-API
    coverage percentages; other days are left out. *)
Definition trend_points (fs : store) (days : list string) : list TrendPoint :=
  flat_map
    (fun d =>
       match coverage_of_day fs d with
       | [] => []
       | cov => [{| date := d; trend_avgCoverage := mean (map percent (map snd cov)) |}]
       end)
    days.

(** What one day of the range does to [allCoverage] and [allUsage] in
    [/api/summary]: a file is pushed when it exists and parses, and a
    malformed coverage file ends the day before its usage file is looked at. *)
Definition summary_day_vars (fs : store) (d : string) (v : summary_vars)
  : summary_vars :=
  match coverage_file fs d with
  | Some (Malformed _) => v
  | c =>
      let v1 := match c with
                | Some (Json cov) => push_coverage cov v
                | _ => v
                end in
      match usage_file fs d with
      | Some (Json use) => push_usage use v1
      | _ => v1
      end
  end.

(** What one day of the range adds to the trace in [/api/summary]. *)
Definition summary_day_trace (fs : store) (d : string) : list event :=
  match coverage_file fs d with
  | Some (Malformed m) =>
      [ExistsSync Coverage d; ReadFileSync Coverage d; ConsoleWarn d m]
  | c =>
      (ExistsSync Coverage d
       :: match c with
          | Some _ => [ReadFileSync Coverage d]
          | None => []
          end)
      ++ match usage_file fs d with
         | Some (Malformed m) =>
             [ExistsSync Usage d; ReadFileSync Usage d; ConsoleWarn d m]
         | Some (Json _) => [ExistsSync Usage d; ReadFileSync Usage d]
         | None => [ExistsSync Usage d]
         end
  end.

Definition summary_vars_of (fs : store) (days : list string) : summary_vars :=
  fold_left (fun v d => summary_day_vars fs d v) days
    {| allCoverage := []; allUsage := [] |}.

(** [s] is [x] rounded to 1 decimal: for a finite [x = p / q] below
    [10 ^ 21] in magnitude, [s] prints [n / 10] with the sign of [x], where
    [n / 10] is within one twentieth of [|x|]. *)
Definition rounded_to_tenth (x : number) (s : string) : Prop :=
  is_finite x = true ->
  forall p q, ratio_of x = (p, q) -> p < 10 ^ 21 * q ->
  exists n, s = fixed1 (x <? 0)%float n /\ Z.abs (20 * p - 2 * n * q) <= q.

(** **** The calendar, for the Date-Range Expander *)

(** A day of the calendar: year, month (1 to 12), day of the month. *)
Definition civil : Type := (Z * Z * Z)%type.

Definition valid_civil (c : civil) : Prop :=
  let '(y, m, d) := c in 1 <= m <= 12 /\ 1 <= d <= days_in_month y m.

(** Days since 1970-01-01. *)
Definition day_number (c : civil) : Z :=
  let '(y, m, d) := c in MakeDay y (m - 1) d.

(** The day after: the next day of the month, else the first of the next
    month, else the first of January of the next year. *)
Definition next_day (c : civil) : civil :=
  let '(y, m, d) := c in
  if d <? days_in_month y m then (y, m, d + 1)
  else if m <? 12 then (y, m + 1, 1)
  else (y + 1, 1, 1).

(** The day key [YYYY-MM-DD]. *)
Definition day_key (c : civil) : string :=
  let '(y, m, d) := c in (pad 4 y ++ "-" ++ pad 2 m ++ "-" ++ pad 2 d)%string.

(** [n] consecutive days of the calendar, from [c] on. *)
Fixpoint calendar_days (n : nat) (c : civil) : list civil :=
  match n with
  | O => nil
  | S k => c :: calendar_days k (next_day c)
  end.

(** What the loop of [generateDateRange] prints at UTC midnight of day
    number [d]. *)
Definition key (d : Z) : string := before_T (toISOString (d * msPerDay)).


(** The first record of [use] whose [api_name] is [n], in the words of the
    specification. *)
Definition first_match (use : usage_list) (n : string) (u : UsageRecord) : Prop :=
  exists before after,
    use = before ++ u :: after /\
    api_name u = JString n /\
    forall u', In u' before -> api_name u' <> JString n.

Definition no_match (use : usage_list) (n : string) : Prop :=
  forall u, In u use -> api_name u <> JString n.

(** The sign and the digits [parseInt] reads at the head of a string: the
    count is numeric when there is at least one digit. *)
Definition leading_integer (s : string) : option Z :=
  let t := trim_start s in
  let '(neg, r) :=
    match t with
    | String "-" r => (true, r)
    | String "+" r => (false, r)
    | _ => (false, t)
    end in
  let '(z, n, _) := take_digits 10 r 0 0 in
  if n =? 0 then None else Some (if neg then - z else z).

(** The usage record [u] names, with a string, one of [names]. *)
Definition named_in (names : list string) (u : UsageRecord) : bool :=
  match api_name u with
  | JString s => existsb (String.eqb s) names
  | _ => false
  end.

(** Day [d] has a coverage file and a usage file, and both parse. *)
Definition paired (fs : store) (d : string) : bool :=
  match coverage_file fs d, usage_file fs d with
  | Some (Json _), Some (Json _) => true
  | _, _ => false
  end.

(** Day [d] adds nothing to [allCoverage] nor to [allUsage] in
    [/api/summary]: its coverage file is malformed, or it is absent and the
    usage file is absent or malformed. *)
Definition pushes_nothing (fs : store) (d : string) : Prop :=
  (exists m, coverage_file fs d = Some (Malformed m))
  \/ (coverage_file fs d = None /\ forall use, usage_file fs d <> Some (Json use)).

(** What one day of the range adds to the trace in [/api/coverage-trends]
    when its coverage file is absent or parses. *)
Definition trends_day_trace (fs : store) (d : string) : list event :=
  ExistsSync Coverage d
  :: match coverage_file fs d with
     | Some _ => [ReadFileSync Coverage d]
     | None => []
     end.

(** A non-empty string of decimal digits. *)
Fixpoint all_digits (s : string) : bool :=
  match s with
  | EmptyString => true
  | String c r =>
      match digit c with
      | Some _ => all_digits r
      | None => false
      end
  end.

Definition digit_string (s : string) : Prop := s <> EmptyString /\ all_digits s = true.

(** The running totals of [calculateSummary] once a NaN percentage has been
    added: [totalCoverage] is NaN, and [count] is positive. *)
Definition poisoned (t : totals) : Prop :=
  totalCoverage t = NaN /\ (0 < count t)%nat.

(** The directory [fs] without the two files of day [d]. *)
Definition without_day (d : string) (fs : store) : store :=
  {| coverage_file := fun k => if String.eqb k d then None else coverage_file fs k;
     usage_file := fun k => if String.eqb k d then None else usage_file fs k |}.

(** The directory [fs] without the usage file of day [d]. *)
Definition without_usage (d : string) (fs : store) : store :=
  {| coverage_file := coverage_file fs;
     usage_file := fun k => if String.eqb k d then None else usage_file fs k |}.

(** The computation [m] returns a 200 response whenever it returns. *)
Definition only_ok {S A} (m : M S (response A)) : Prop :=
  forall s r s', m s = (Return r, s') -> exists a, r = Ok a.

End Spec.

(* ================================================================== *)
(** ** Proofs *)

Module Facts.

Import JS JSDate Server Scenario Spec.
Local Open Scope list_scope.

(** Unfolds the monad, and nothing else. *)
Ltac run_M :=
  cbv [bind ret emit modify existsSync readJson throw when try_catch read
       load handle fst snd negb].

(** *** Running the handlers *)

Lemma bind_run {S A B} (m : M S A) (f : A -> M S B) (s : S * list event) :
  bind m f s
  = match m s with
    | (Return a, s') => f a s'
    | (Throw e, s') => (Throw e, s')
    end.
Proof. reflexivity. Qed.

Lemma summary_day_run (fs : store) (d : string) (v : summary_vars)
  (t : list event) :
  summary_day fs d (v, t)
  = (Return tt, (summary_day_vars fs d v, t ++ summary_day_trace fs d)).
Proof.
  unfold summary_day, summary_day_vars, summary_day_trace. run_M.
  destruct (coverage_file fs d) as [[m | cov] |];
    destruct (usage_file fs d) as [[m' | use] |]; cbn;
    now rewrite <- ?app_assoc.
Qed.

Lemma summary_days_run (fs : store) (days : list string) :
  forall v t,
    for_of days (summary_day fs) (v, t)
    = (Return tt,
       (fold_left (fun v d => summary_day_vars fs d v) days v,
        t ++ flat_map (summary_day_trace fs) days)).
Proof.
  induction days as [| d days IH]; intros v t; cbn [for_of flat_map fold_left].
  - run_M. now rewrite app_nil_r.
  - rewrite bind_run, summary_day_run, IH. now rewrite app_assoc.
Qed.

(** [/api/summary] on a range that expands: the summary of what the days
    pushed, and the trace of the days. *)
Lemma api_summary_run (h : host) (fuel : nat) (fs : store) (s e : string)
  (days : list string) :
  missing (Some s) = false -> missing (Some e) = false ->
  generateDateRange h fuel s e = Some (Dates days) ->
  api_summary h fuel fs (Some s) (Some e)
  = Some (Ok (calculateSummary (allCoverage (summary_vars_of fs days))
                (allUsage (summary_vars_of fs days))),
          request_log :: flat_map (summary_day_trace fs) days).
Proof.
  intros Hs He Hr. unfold api_summary. rewrite Hs, He, Hr. cbn [orb].
  unfold handle, summary_from, for_of_range.
  rewrite bind_run. unfold emit at 1. cbn [fst snd app].
  rewrite bind_run, summary_days_run. reflexivity.
Qed.

(** *** Fuel *)

Lemma range_loop_more_fuel (h : host) (n : nat) :
  forall startDate endDate dates r k,
    range_loop h n startDate endDate dates = Some r ->
    range_loop h (n + k) startDate endDate dates = Some r.
Proof.
  induction n as [| n IH]; intros s e dates r k H; [discriminate |].
  cbn [range_loop Nat.add] in *.
  destruct (s <=? e); [| exact H].
  destruct (setDate h s (getDate h s + 1)); [| exact H].
  now apply IH.
Qed.

Lemma generateDateRange_more_fuel (h : host) (n k : nat) (s e : string)
  (r : range) :
  generateDateRange h n s e = Some r ->
  generateDateRange h (n + k) s e = Some r.
Proof.
  unfold generateDateRange.
  destruct (new_Date h s) as [ts |]; [| trivial].
  destruct (new_Date h e) as [te |]; [| trivial].
  destruct (range_loop h n ts te []) as [ds |] eqn:E; [| discriminate].
  intros H. now rewrite (range_loop_more_fuel _ _ _ _ _ _ k E).
Qed.

Lemma api_summary_more_fuel (h : host) (n k : nat) (fs : store)
  (s e : string) (r : range) :
  generateDateRange h n s e = Some r ->
  api_summary h (n + k) fs (Some s) (Some e)
  = api_summary h n fs (Some s) (Some e).
Proof.
  intros H. unfold api_summary.
  now rewrite H, (generateDateRange_more_fuel _ _ k _ _ _ H).
Qed.

Lemma api_coverage_trends_more_fuel (h : host) (n k : nat) (fs : store)
  (s e : string) (r : range) :
  generateDateRange h n s e = Some r ->
  api_coverage_trends h (n + k) fs (Some s) (Some e)
  = api_coverage_trends h n fs (Some s) (Some e).
Proof.
  intros H. unfold api_coverage_trends.
  now rewrite H, (generateDateRange_more_fuel _ _ k _ _ _ H).
Qed.

(** *** Days that load no coverage *)

Lemma summary_day_vars_no_coverage (fs : store) (d : string) (v : summary_vars) :
  no_coverage fs d -> allCoverage (summary_day_vars fs d v) = allCoverage v.
Proof.
  unfold summary_day_vars. intros [-> | [m ->]]; [| reflexivity].
  now destruct (usage_file fs d) as [[m | use] |].
Qed.

Lemma summary_vars_no_coverage (fs : store) (days : list string) :
  (forall d, In d days -> no_coverage fs d) ->
  allCoverage (summary_vars_of fs days) = [].
Proof.
  unfold summary_vars_of.
  change (@nil coverage_map)
    with (allCoverage {| allCoverage := []; allUsage := [] |}) at 2.
  generalize {| allCoverage := []; allUsage := [] |}.
  induction days as [| d days IH]; intros v H; cbn; [reflexivity |].
  rewrite IH by (intros d' Hd'; apply H; now right).
  apply summary_day_vars_no_coverage, H. now left.
Qed.

(** *** Objects and usage lists *)

Lemma get_own_get (cov : coverage_map) (n : string) (api : CoverageRecord) :
  get_own cov n = Some api -> get cov n = Some api.
Proof. intros H. unfold get. now rewrite H. Qed.

Lemma get_of_key (cov : coverage_map) (n : string) :
  In n (Object_keys cov) -> exists api, get cov n = Some api.
Proof.
  intros H. assert (Hown : exists api, get_own cov n = Some api).
  { induction cov as [| [k v] cov IH]; cbn in *; [contradiction |].
    destruct H as [-> | Hin].
    - rewrite String.eqb_refl. eauto.
    - destruct (String.eqb k n); eauto. }
  destruct Hown as [api Hown]. exists api. now apply get_own_get.
Qed.

Lemma get_of_entry (cov : coverage_map) (n : string) (api : CoverageRecord) :
  NoDup (Object_keys cov) -> In (n, api) cov -> get cov n = Some api.
Proof.
  intros Hnd Hin. apply get_own_get. revert Hnd Hin.
  induction cov as [| [k v] cov IH]; cbn; [contradiction |].
  intros Hnd [Heq | Hin].
  - injection Heq as -> ->. now rewrite String.eqb_refl.
  - inversion Hnd as [| ? ? Hk Hnd']; subst.
    destruct (String.eqb_spec k n) as [-> | _].
    + exfalso. apply Hk. change n with (fst (n, api)). now apply in_map.
    + now apply IH.
Qed.

Lemma strict_eq_true (v : jsval) (n : string) :
  strict_eq v n = true <-> v = JString n.
Proof.
  destruct v; cbn; try (split; [discriminate | discriminate]).
  rewrite String.eqb_eq. split; [now intros -> | now intros [= ->]].
Qed.

Lemma find_usage_none (use : usage_list) (n : string) :
  find_usage use n = None <-> no_match use n.
Proof.
  unfold find_usage, no_match. split.
  - intros H u Hin Heq.
    pose proof (find_none _ _ H u Hin) as Hf. cbn in Hf.
    apply strict_eq_true in Heq. congruence.
  - intros H. induction use as [| u use IH]; [reflexivity |]. cbn.
    destruct (strict_eq (api_name u) n) eqn:E.
    + apply strict_eq_true in E. exfalso. apply (H u); [now left | exact E].
    + apply IH. intros u' Hin. apply H. now right.
Qed.

Lemma find_usage_some (use : usage_list) (n : string) (u : UsageRecord) :
  find_usage use n = Some u <-> first_match use n u.
Proof.
  unfold find_usage, first_match.
  induction use as [| u0 use IH]; cbn.
  - split; [discriminate |]. intros (b & a & H & _). now destruct b.
  - destruct (strict_eq (api_name u0) n) eqn:E.
    + apply strict_eq_true in E. split.
      * intros [= <-]. exists [], use. repeat split; [exact E | contradiction].
      * intros (b & a & H & Hu & Hb). destruct b as [| b0 b].
        -- now injection H as ->.
        -- injection H as -> _. exfalso. apply (Hb b0); [now left | exact E].
    + rewrite IH. split.
      * intros (b & a & -> & Hu & Hb). exists (u0 :: b), a.
        repeat split; [exact Hu |].
        intros u' [<- | Hin]; [| now apply Hb].
        intros Heq. apply strict_eq_true in Heq. congruence.
      * intros (b & a & H & Hu & Hb). destruct b as [| b0 b].
        -- injection H as <- _. apply strict_eq_true in Hu. congruence.
        -- injection H as _ ->. exists b, a. repeat split; [exact Hu |].
           intros u' Hin. apply Hb. now right.
Qed.

(** *** Running /api/coverage-trends *)

Lemma sum_percent_run {S} (cov : coverage_map) (l : coverage_map) :
  (forall n api, In (n, api) l -> get cov n = Some api) ->
  forall (acc : number) (s : S * list event),
    sum_percent cov (Object_keys l) acc s
    = (Return (fold_left PrimFloat.add (map percent (map snd l)) acc), s).
Proof.
  induction l as [| [n api] l IH]; intros H acc s; cbn; [reflexivity |].
  unfold bind, item. rewrite (H n api) by now left. cbn.
  apply IH. intros n' api' Hin. apply H. now right.
Qed.

Lemma trend_points_cons (fs : store) (d : string) (days : list string) :
  trend_points fs (d :: days) = trend_points fs [d] ++ trend_points fs days.
Proof.
  unfold trend_points. cbn. now rewrite app_nil_r.
Qed.

Lemma trend_points_one (fs : store) (d : string) :
  trend_points fs [d]
  = if Nat.eqb (List.length (Object_keys (coverage_of_day fs d))) 0 then []
    else [{| date := d;
             trend_avgCoverage :=
               (fold_left PrimFloat.add
                  (map percent (map snd (coverage_of_day fs d))) pos_zero
                / of_nat (List.length (Object_keys (coverage_of_day fs d))))%float |}].
Proof.
  unfold trend_points, mean, Object_keys. cbn [flat_map].
  rewrite app_nil_r.
  destruct (coverage_of_day fs d) as [| x cov]; [reflexivity |].
  cbn [List.length map Nat.eqb]. now rewrite !length_map.
Qed.

Lemma trends_day_run (fs : store) (d : string) :
  objects fs -> (forall m, coverage_file fs d <> Some (Malformed m)) ->
  forall trends t,
  exists t',
    trends_day fs d (trends, t)
    = (Return tt, (trends ++ trend_points fs [d], t ++ t')).
Proof.
  intros Hobj Hok trends t. rewrite trend_points_one.
  unfold trends_day, coverage_of_day. run_M.
  destruct (coverage_file fs d) as [[m | cov] |] eqn:E; run_M.
  - now destruct (Hok m).
  - destruct (Nat.eqb (List.length (Object_keys cov)) 0).
    + rewrite app_nil_r, <- app_assoc. eexists. reflexivity.
    + rewrite (sum_percent_run cov cov)
        by (intros; apply get_of_entry; [now apply (Hobj d) | assumption]).
      rewrite <- app_assoc. eexists. reflexivity.
  - rewrite app_nil_r. eexists. reflexivity.
Qed.

Lemma trends_days_run (fs : store) (days : list string) :
  objects fs ->
  (forall d, In d days -> forall m, coverage_file fs d <> Some (Malformed m)) ->
  forall trends t,
  exists t',
    for_of days (trends_day fs) (trends, t)
    = (Return tt, (trends ++ trend_points fs days, t ++ t')).
Proof.
  intros Hobj. induction days as [| d days IH]; intros Hok trends t.
  - exists []. cbn. now rewrite !app_nil_r.
  - cbn [for_of]. unfold bind.
    destruct (trends_day_run fs d Hobj (Hok d (or_introl eq_refl)) trends t)
      as [t1 ->].
    destruct (IH (fun d' H => Hok d' (or_intror H))
                (trends ++ trend_points fs [d]) (t ++ t1)) as [t2 ->].
    exists (t1 ++ t2).
    now rewrite (trend_points_cons fs d days), !app_assoc.
Qed.

Lemma api_coverage_trends_run (h : host) (fuel : nat) (fs : store)
  (s e : string) (days : list string) :
  missing (Some s) = false -> missing (Some e) = false ->
  generateDateRange h fuel s e = Some (Dates days) ->
  objects fs ->
  (forall d, In d days -> forall m, coverage_file fs d <> Some (Malformed m)) ->
  exists t,
    api_coverage_trends h fuel fs (Some s) (Some e)
    = Some (Ok (trend_points fs days), t).
Proof.
  intros Hs He Hr Hobj Hok. unfold api_coverage_trends.
  rewrite Hs, He, Hr. cbn.
  unfold handle, trends_from, bind, read, ret. cbn.
  destruct (trends_days_run fs days Hobj Hok [] []) as [t ->].
  cbn. eauto.
Qed.

Lemma trend_points_dates (fs : store) (days : list string) :
  map date (trend_points fs days)
  = filter (fun d => negb (Nat.eqb (List.length (coverage_of_day fs d)) 0)) days.
Proof.
  induction days as [| d days IH]; [reflexivity |].
  rewrite trend_points_cons, map_app, IH. cbn.
  unfold trend_points. cbn.
  now destruct (coverage_of_day fs d).
Qed.

(** *** Running /api/apis and /api/coverage-usage *)

Lemma rows_run {S} (use : usage_list) (cov l : coverage_map) :
  (forall n api, In (n, api) l -> get cov n = Some api) ->
  forall s : S * list event,
    map_M (fun n => api <- item cov n ;; ret (row use n api)) (Object_keys l) s
    = (Return (map (fun na => row use (fst na) (snd na)) l), s).
Proof.
  induction l as [| [n api] l IH]; intros H s; [reflexivity |].
  cbn [map_M Object_keys map fst snd]. unfold bind at 1 2. unfold item.
  rewrite (H n api) by now left. run_M.
  change (map fst l) with (Object_keys l).
  rewrite IH by (intros n' api' Hin; apply H; now right).
  reflexivity.
Qed.

Lemma scatter_run (use : usage_list) (cov l : coverage_map) :
  (forall n api, In (n, api) l -> get cov n = Some api) ->
  forall scatterData t,
    for_of (Object_keys l)
      (fun n => api <- item cov n ;;
                modify (fun scatterData => scatterData ++ [scatter_point use n api]))
      (scatterData, t)
    = (Return tt,
       (scatterData ++ map (fun na => scatter_point use (fst na) (snd na)) l, t)).
Proof.
  induction l as [| [n api] l IH]; intros H acc t.
  - cbn. now rewrite app_nil_r.
  - cbn [for_of Object_keys map fst snd]. unfold bind at 1 2. unfold item.
    rewrite (H n api) by now left. run_M.
    change (map fst l) with (Object_keys l).
    rewrite IH by (intros n' api' Hin; apply H; now right).
    now rewrite <- app_assoc.
Qed.

Lemma entries_of_day (fs : store) (d : string) :
  objects fs ->
  forall n api,
    In (n, api) (coverage_of_day fs d) -> get (coverage_of_day fs d) n = Some api.
Proof.
  intros Hobj n api. unfold coverage_of_day.
  destruct (coverage_file fs d) as [[m | cov] |] eqn:E; try contradiction.
  apply get_of_entry, (Hobj d), E.
Qed.

Lemma load_run {S A} (k : kind) (f : string -> option (file A)) (d : string)
  (empty : A) (s : S) (t : list event) :
  load k f d empty (s, t)
  = match f d with
    | Some (Malformed m) =>
        (Throw (SyntaxError m), (s, t ++ [ExistsSync k d; ReadFileSync k d]))
    | Some (Json a) => (Return a, (s, t ++ [ExistsSync k d; ReadFileSync k d]))
    | None => (Return empty, (s, t ++ [ExistsSync k d]))
    end.
Proof.
  unfold load. run_M.
  destruct (f d) as [[m | a] |]; run_M; now rewrite <- ?app_assoc.
Qed.

Lemma api_apis_run (fs : store) (d : string) :
  missing (Some d) = false -> objects fs -> parses fs d ->
  exists t,
    api_apis fs (Some d)
    = (Ok (map (fun na => row (usage_of_day fs d) (fst na) (snd na))
             (coverage_of_day fs d)), t).
Proof.
  intros Hd Hobj [Hc Hu]. pose proof (entries_of_day fs d Hobj) as Hget.
  unfold api_apis. rewrite Hd.
  unfold handle, apis_body, coverage_of_day, usage_of_day in *.
  rewrite bind_run, load_run.
  destruct (coverage_file fs d) as [[m | cov] |]; [now destruct (Hc m) | |];
    rewrite bind_run, load_run;
    (destruct (usage_file fs d) as [[m' | use] |]; [now destruct (Hu m') | |]);
    rewrite bind_run;
    try rewrite (rows_run _ cov cov Hget);
    eexists; reflexivity.
Qed.

Lemma api_coverage_usage_run (fs : store) (d : string) :
  missing (Some d) = false -> objects fs -> parses fs d ->
  exists t,
    api_coverage_usage fs (Some d)
    = (Ok (map (fun na => scatter_point (usage_of_day fs d) (fst na) (snd na))
             (coverage_of_day fs d)), t).
Proof.
  intros Hd Hobj [Hc Hu]. pose proof (entries_of_day fs d Hobj) as Hget.
  unfold api_coverage_usage. rewrite Hd.
  unfold handle, coverage_usage_body, coverage_of_day, usage_of_day in *.
  rewrite bind_run, load_run.
  destruct (coverage_file fs d) as [[m | cov] |]; [now destruct (Hc m) | |];
    rewrite bind_run, load_run;
    (destruct (usage_file fs d) as [[m' | use] |]; [now destruct (Hu m') | |]);
    rewrite bind_run;
    try rewrite (scatter_run _ cov cov Hget);
    eexists; reflexivity.
Qed.

(** *** toFixed(1) *)

Lemma ratio_of_sign (x : number) (p q : Z) :
  ratio_of x = (p, q) -> 0 <= p /\ 0 < q.
Proof.
  unfold ratio_of. destruct (Prim2SF x) as [| | | sg m e];
    try (intros [= <- <-]; lia).
  destruct (0 <=? e) eqn:E; intros H; injection H as Hp Hq; subst p q.
  - apply Z.leb_le in E. split; [| lia].
    pose proof (Z.pow_nonneg 2 e ltac:(lia)) as Hpow.
    change (0 <= Z.pos m * 2 ^ e). apply Z.mul_nonneg_nonneg; lia.
  - apply Z.leb_gt in E. split; [lia |]. apply Z.pow_pos_nonneg; lia.
Qed.

Lemma tenths_nearest (p q : Z) :
  0 < q -> Z.abs (20 * p - 2 * tenths p q * q) <= q.
Proof.
  intros Hq. unfold tenths.
  pose proof (Z.div_mod (20 * p + q) (2 * q) ltac:(lia)) as Hdm.
  pose proof (Z.mod_pos_bound (20 * p + q) (2 * q) ltac:(lia)) as Hb.
  lia.
Qed.

Lemma toFixed1_rounded (x : number) : rounded_to_tenth x (toFixed1 x).
Proof.
  intros Hfin p q Hr Hlt. unfold toFixed1. rewrite Hfin, Hr. cbn [negb].
  destruct (10 ^ 21 * q <=? p) eqn:E; [apply Z.leb_le in E; lia |].
  exists (tenths p q). split; [reflexivity |].
  apply tenths_nearest, (ratio_of_sign x p q Hr).
Qed.

(** *** Directories given by a list of files *)

Lemma directory_objects (cov : list (string * file coverage_map))
  (use : list (string * file usage_list)) :
  Forall (fun kf => match snd kf with
                    | Json c => NoDup (Object_keys c)
                    | Malformed _ => True
                    end) cov ->
  objects (directory cov use).
Proof.
  intros H d c. cbn. induction H as [| [k f] cov Hf _ IH]; cbn; [discriminate |].
  destruct (String.eqb k d); [| exact IH].
  intros [= ->]. exact Hf.
Qed.

Lemma keys_of_entry (cov : coverage_map) (n : string) (api : CoverageRecord) :
  In (n, api) cov -> In n (Object_keys cov).
Proof.
  intros H. change n with (fst (n, api)). now apply in_map.
Qed.

(** *** parseInt *)

Lemma digit_of_nonneg (radix : Z) (c : ascii) (d : Z) :
  digit_of radix c = Some d -> 0 <= d.
Proof.
  unfold digit_of.
  destruct ((48 <=? code c) && (code c <=? 57)) eqn:E1;
    [| destruct ((97 <=? code c) && (code c <=? 122)) eqn:E2;
       [| destruct ((65 <=? code c) && (code c <=? 90)) eqn:E3]];
    match goal with |- (if ?b then _ else _) = _ -> _ => destruct b end;
    intros [= <-]; lia.
Qed.

Lemma take_digits_nonneg (radix : Z) (s : string) :
  0 <= radix ->
  forall acc n v k r,
    0 <= acc -> take_digits radix s acc n = (v, k, r) -> 0 <= v.
Proof.
  intros Hr. induction s as [| c s IH]; intros acc n v k r Hacc; cbn.
  - intros [= <- _ _]. exact Hacc.
  - destruct (digit_of radix c) as [d |] eqn:E.
    + apply IH. pose proof (digit_of_nonneg _ _ _ E). nia.
    + intros [= <- _ _]. exact Hacc.
Qed.




(** *** The calendar *)

Lemma is_leap_spec y : is_leap y = true <-> (y mod 4 = 0 /\ y mod 100 <> 0) \/ y mod 400 = 0.
Proof.
  unfold is_leap. rewrite orb_true_iff, andb_true_iff, negb_true_iff, !Z.eqb_eq, Z.eqb_neq. tauto.
Qed.

Lemma DayFromYear_step y : DayFromYear (y + 1) = DayFromYear y + DaysInYear y.
Proof.
  unfold DaysInYear. destruct (is_leap y) eqn:E.
  - apply is_leap_spec in E. unfold DayFromYear. (Z.div_mod_to_equations; lia).
  - assert (H : ~ ((y mod 4 = 0 /\ y mod 100 <> 0) \/ y mod 400 = 0)) by (rewrite <- is_leap_spec; congruence).
    unfold DayFromYear. (Z.div_mod_to_equations; lia).
Qed.

Lemma YearFromTime_spec t : DayFromYear (YearFromTime t) <= Day t < DayFromYear (YearFromTime t + 1).
Proof.
  unfold YearFromTime. set (d := Day t). set (y := 1970 + 400 * d / 146097).
  assert (H1 : DayFromYear (y - 1) <= d) by (unfold DayFromYear, y; (Z.div_mod_to_equations; lia)).
  assert (H2 : d < DayFromYear (y + 2)) by (unfold DayFromYear, y; (Z.div_mod_to_equations; lia)).
  destruct (DayFromYear (y + 1) <=? d) eqn:E1.
  - apply Z.leb_le in E1. replace (y + 1 + 1) with (y + 2) by lia. lia.
  - apply Z.leb_gt in E1. destruct (DayFromYear y <=? d) eqn:E2.
    + apply Z.leb_le in E2. lia.
    + apply Z.leb_gt in E2. replace (y - 1 + 1) with y by lia. lia.
Qed.

Lemma DaysInYear_pos y : 365 <= DaysInYear y <= 366.
Proof. unfold DaysInYear. destruct (is_leap y); lia. Qed.

Lemma DayFromYear_mono a b : a <= b -> DayFromYear a <= DayFromYear b.
Proof.
  intros H. unfold DayFromYear. Z.div_mod_to_equations. lia.
Qed.

Lemma DayFromYear_lt a b : a < b -> DayFromYear a < DayFromYear b.
Proof.
  intros H. pose proof (DayFromYear_mono (a + 1) b ltac:(lia)).
  pose proof (DayFromYear_step a). pose proof (DaysInYear_pos a). lia.
Qed.

Lemma YearFromTime_unique t y :
  DayFromYear y <= Day t < DayFromYear (y + 1) -> YearFromTime t = y.
Proof.
  intros H. pose proof (YearFromTime_spec t) as H'.
  destruct (Z.lt_trichotomy (YearFromTime t) y) as [Hlt | [Heq | Hgt]]; [| exact Heq |].
  - pose proof (DayFromYear_mono (YearFromTime t + 1) y ltac:(lia)). lia.
  - pose proof (DayFromYear_mono (y + 1) (YearFromTime t) ltac:(lia)). lia.
Qed.

Lemma DayWithinYear_bound t : 0 <= DayWithinYear t < DaysInYear (YearFromTime t).
Proof.
  unfold DayWithinYear. pose proof (YearFromTime_spec t).
  pose proof (DayFromYear_step (YearFromTime t)). lia.
Qed.

Lemma MonthFromTime_range t : 0 <= MonthFromTime t <= 11.
Proof.
  unfold MonthFromTime.
  repeat match goal with |- context [if ?b then _ else _] => destruct b end; lia.
Qed.

Lemma MakeDay_inverse t :
  MakeDay (YearFromTime t) (MonthFromTime t) (DateFromTime t) = Day t.
Proof.
  pose proof (DayWithinYear_bound t) as Hb.
  unfold MakeDay, DateFromTime, MonthFromTime, InLeapYear, DaysInYear in *.
  unfold DayWithinYear in *.
  set (y := YearFromTime t) in *. set (d := Day t) in *.
  destruct (is_leap y) eqn:EL;
  repeat match goal with
         | |- context [if ?a <? ?b then _ else _] =>
             let E := fresh "E" in destruct (a <? b) eqn:E;
             [apply Z.ltb_lt in E | apply Z.ltb_ge in E]
         end;
  cbn -[DayFromYear]; rewrite ?Z.add_0_r, ?EL; cbn -[DayFromYear]; lia.
Qed.

Lemma Day_of_days d r : 0 <= r < msPerDay -> Day (d * msPerDay + r) = d.
Proof.
  intros H. unfold Day. unfold msPerDay in *.
  Z.div_mod_to_equations. lia.
Qed.

Lemma TimeWithinDay_of_days d r : 0 <= r < msPerDay -> TimeWithinDay (d * msPerDay + r) = r.
Proof.
  intros H. unfold TimeWithinDay. unfold msPerDay in *.
  Z.div_mod_to_equations. lia.
Qed.

Lemma setDate_fixed off other t :
  setDate (fixed_offset off other) t (getDate (fixed_offset off other) t + 1)
  = TimeClip (t + msPerDay).
Proof.
  unfold setDate, getDate, LocalTime, UTC, fixed_offset. cbn [LocalTZA].
  set (t' := t + off). f_equal.
  unfold MakeDate.
  replace (MakeDay (YearFromTime t') (MonthFromTime t') (DateFromTime t' + 1))
    with (Day t' + 1)
    by (rewrite <- (MakeDay_inverse t'); unfold MakeDay; lia).
  unfold Day, TimeWithinDay.
  pose proof (Z.div_mod t' msPerDay ltac:(unfold msPerDay; lia)).
  subst t'. lia.
Qed.

Lemma range_loop_fixed off other d1 :
  d1 < 99999999 ->
  forall k d acc fuel,
    (k < fuel)%nat -> d1 - d + 1 = Z.of_nat k -> - 99999999 < d ->
    range_loop (fixed_offset off other) fuel (d * msPerDay) (d1 * msPerDay) acc
    = Some (acc ++ map (fun i => key (d + Z.of_nat i)) (seq 0 k)).
Proof.
  intros Hd1. induction k as [| k IH]; intros d acc fuel Hf Hk Hd;
    (destruct fuel as [| fuel]; [lia |]); cbn [range_loop].
  - replace (d * msPerDay <=? d1 * msPerDay) with false
      by (symmetry; apply Z.leb_gt; unfold msPerDay; lia).
    cbn. now rewrite app_nil_r.
  - replace (d * msPerDay <=? d1 * msPerDay) with true
      by (symmetry; apply Z.leb_le; unfold msPerDay; lia).
    rewrite setDate_fixed. unfold TimeClip.
    replace (8640000000000000 <? Z.abs (d * msPerDay + msPerDay)) with false
      by (symmetry; apply Z.ltb_ge; unfold msPerDay; lia).
    replace (d * msPerDay + msPerDay) with ((d + 1) * msPerDay) by lia.
    rewrite IH by lia.
    f_equal. rewrite <- app_assoc. f_equal. cbn [seq map app].
    rewrite Z.add_0_r. fold (key d). f_equal.
    rewrite <- seq_shift, map_map. apply map_ext. intros i. f_equal. lia.
Qed.

Ltac months m :=
  let H := fresh in
  assert (H : m = 1 \/ m = 2 \/ m = 3 \/ m = 4 \/ m = 5 \/ m = 6 \/ m = 7 \/
              m = 8 \/ m = 9 \/ m = 10 \/ m = 11 \/ m = 12) by lia;
  destruct H as [-> | [-> | [-> | [-> | [-> | [-> | [-> | [-> | [-> | [-> | [-> | ->]]]]]]]]]]].

Ltac closed_month :=
  repeat match goal with
         | |- context [days_in_month ?y (?a + ?b)] =>
             let v := eval vm_compute in (a + b) in
             change (days_in_month y (a + b)) with (days_in_month y v)
         | H : context [days_in_month ?y (?a + ?b)] |- _ =>
             let v := eval vm_compute in (a + b) in
             change (days_in_month y (a + b)) with (days_in_month y v) in H
         end.

Ltac tables :=
  closed_month;
  cbv beta iota delta [days_in_month] in *;
  try match goal with EL : is_leap _ = _ |- _ => rewrite ?EL in * end;
  repeat match goal with
         | |- context [days_before_month ?l ?k] =>
             let v := eval vm_compute in (days_before_month l k) in
             change (days_before_month l k) with v
         | H : context [days_before_month ?l ?k] |- _ =>
             let v := eval vm_compute in (days_before_month l k) in
             change (days_before_month l k) with v in H
         end.

Ltac split_ltb :=
  repeat match goal with
         | |- context [if ?a <? ?b then _ else _] =>
             let E := fresh "E" in destruct (a <? b) eqn:E;
             [apply Z.ltb_lt in E | apply Z.ltb_ge in E]
         | H : context [if ?a <? ?b then _ else _] |- _ =>
             let E := fresh "E" in destruct (a <? b) eqn:E;
             [apply Z.ltb_lt in E | apply Z.ltb_ge in E]
         end.

Lemma day_number_within y m d :
  valid_civil (y, m, d) ->
  day_number (y, m, d)
  = DayFromYear y + days_before_month (is_leap y) (m - 1) + d - 1
  /\ 0 <= days_before_month (is_leap y) (m - 1) + d - 1 < DaysInYear y.
Proof.
  intros [Hm Hd]. unfold day_number, MakeDay, DaysInYear.
  replace ((m - 1) / 12) with 0 by (Z.div_mod_to_equations; lia).
  replace ((m - 1) mod 12) with (m - 1) by (Z.div_mod_to_equations; lia).
  rewrite Z.add_0_r. split; [reflexivity |].
  destruct (is_leap y) eqn:EL; months m; tables; lia.
Qed.

Lemma civil_of_day_number y m d r :
  valid_civil (y, m, d) -> 0 <= r < msPerDay ->
  let t := day_number (y, m, d) * msPerDay + r in
  YearFromTime t = y /\ MonthFromTime t = m - 1 /\ DateFromTime t = d.
Proof.
  intros Hv Hr t. destruct (day_number_within y m d Hv) as [Hn Hw].
  assert (HD : Day t = day_number (y, m, d)) by (apply Day_of_days, Hr).
  assert (HY : YearFromTime t = y).
  { apply YearFromTime_unique. rewrite HD, Hn, DayFromYear_step. lia. }
  assert (HW : DayWithinYear t = days_before_month (is_leap y) (m - 1) + d - 1).
  { unfold DayWithinYear. rewrite HY, HD, Hn. lia. }
  split; [exact HY |].
  unfold DateFromTime, MonthFromTime, InLeapYear. rewrite HW, HY.
  destruct Hv as [Hm Hd]. unfold DaysInYear in *.
  destruct (is_leap y) eqn:EL; months m; tables;
    split_ltb; try lia; split; cbv beta iota; lia.
Qed.

Lemma next_day_spec c :
  valid_civil c ->
  valid_civil (next_day c) /\ day_number (next_day c) = day_number c + 1.
Proof.
  destruct c as [[y m] d]. intros Hv.
  destruct (day_number_within y m d Hv) as [Hn _].
  pose proof Hv as [Hm Hd]. unfold next_day.
  destruct (d <? days_in_month y m) eqn:E1;
    [apply Z.ltb_lt in E1 | apply Z.ltb_ge in E1].
  - assert (Hv' : valid_civil (y, m, d + 1)) by (cbn; lia).
    split; [exact Hv' |].
    destruct (day_number_within y m (d + 1) Hv') as [-> _]. lia.
  - destruct (m <? 12) eqn:E2; [apply Z.ltb_lt in E2 | apply Z.ltb_ge in E2].
    + assert (Hv' : valid_civil (y, m + 1, 1)).
      { unfold valid_civil. split; [lia |].
        destruct (is_leap y) eqn:EL; months m; tables; lia. }
      split; [exact Hv' |].
      destruct (day_number_within y (m + 1) 1 Hv') as [-> _]. rewrite Hn.
      destruct (is_leap y) eqn:EL; months m; tables; lia.
    + assert (Hv' : valid_civil (y + 1, 1, 1)) by (cbn; lia).
      split; [exact Hv' |].
      destruct (day_number_within (y + 1) 1 1 Hv') as [-> _]. rewrite Hn.
      assert (m = 12) as -> by lia. rewrite DayFromYear_step. unfold DaysInYear.
      destruct (is_leap y) eqn:EL; tables; lia.
Qed.

Lemma day_number_inj c1 c2 :
  valid_civil c1 -> valid_civil c2 -> day_number c1 = day_number c2 -> c1 = c2.
Proof.
  destruct c1 as [[y1 m1] d1], c2 as [[y2 m2] d2]. intros H1 H2 H.
  destruct (civil_of_day_number y1 m1 d1 0 H1 ltac:(unfold msPerDay; lia))
    as (Hy1 & Hm1 & Hd1).
  destruct (civil_of_day_number y2 m2 d2 0 H2 ltac:(unfold msPerDay; lia))
    as (Hy2 & Hm2 & Hd2).
  rewrite H in *. f_equal; [f_equal |]; lia.
Qed.

Lemma append_assoc (a b c : string) : ((a ++ b) ++ c = a ++ b ++ c)%string.
Proof. induction a as [| x a IH]; cbn; [reflexivity | now rewrite IH]. Qed.

Lemma digits_fixed_app w :
  forall n acc, digits_fixed w n acc = (digits_fixed w n "" ++ acc)%string.
Proof.
  induction w as [| w IH]; intros n acc; cbn; [reflexivity |].
  rewrite IH, (IH _ (String _ "")), append_assoc. reflexivity.
Qed.

Lemma pad_succ w n :
  pad (S w) n = (pad w (n / 10) ++ String (digit_char (n mod 10)) "")%string.
Proof. unfold pad. cbn. apply digits_fixed_app. Qed.

Lemma digit_char_cases d :
  0 <= d < 10 ->
  d = 0 \/ d = 1 \/ d = 2 \/ d = 3 \/ d = 4 \/ d = 5 \/ d = 6 \/ d = 7 \/ d = 8 \/ d = 9.
Proof. lia. Qed.

Lemma digit_digit_char d : 0 <= d < 10 -> digit (digit_char d) = Some d.
Proof.
  intros H. destruct (digit_char_cases d H)
    as [-> | [-> | [-> | [-> | [-> | [-> | [-> | [-> | [-> | ->]]]]]]]]];
    reflexivity.
Qed.

Lemma digit_char_code d : 0 <= d < 10 -> nat_of_ascii (digit_char d) = Z.to_nat (48 + d).
Proof.
  intros H. unfold digit_char. apply nat_ascii_embedding. lia.
Qed.

Lemma digit_char_not_T d : 0 <= d < 10 -> Ascii.eqb (digit_char d) "T" = false.
Proof.
  intros H. destruct (digit_char_cases d H)
    as [-> | [-> | [-> | [-> | [-> | [-> | [-> | [-> | [-> | ->]]]]]]]]];
    reflexivity.
Qed.

Lemma digit_code c d :
  digit c = Some d -> 0 <= d < 10 /\ Z.of_nat (nat_of_ascii c) = 48 + d.
Proof.
  unfold digit, digit_of, code.
  set (n := Z.of_nat (nat_of_ascii c)).
  destruct ((48 <=? n) && (n <=? 57)) eqn:E1.
  - apply andb_true_iff in E1 as [H1 H2]. apply Z.leb_le in H1, H2.
    destruct (n - 48 <? 10); intros [= <-]. lia.
  - destruct ((97 <=? n) && (n <=? 122)) eqn:E2.
    + apply andb_true_iff in E2 as [H1 H2]. apply Z.leb_le in H1, H2.
      destruct (n - 87 <? 10) eqn:E; [apply Z.ltb_lt in E; lia | discriminate].
    + destruct ((65 <=? n) && (n <=? 90)) eqn:E3.
      * apply andb_true_iff in E3 as [H1 H2]. apply Z.leb_le in H1, H2.
        destruct (n - 55 <? 10) eqn:E; [apply Z.ltb_lt in E; lia | discriminate].
      * cbn. discriminate.
Qed.

Lemma digit_char_of_digit c d : digit c = Some d -> c = digit_char d /\ 0 <= d < 10.
Proof.
  intros H. destruct (digit_code c d H) as [Hd Hc]. split; [| exact Hd].
  rewrite <- (ascii_nat_embedding c). unfold digit_char. f_equal. lia.
Qed.

Lemma before_T_pad w : forall n r, before_T (pad w n ++ r) = (pad w n ++ before_T r)%string.
Proof.
  induction w as [| w IH]; intros n r; [reflexivity |].
  rewrite pad_succ, !append_assoc, IH. cbn.
  rewrite digit_char_not_T; [reflexivity |].
  apply Z.mod_pos_bound. lia.
Qed.

Lemma pad_head w : forall d n,
  0 <= d < 10 -> 0 <= n < 10 ^ Z.of_nat w ->
  pad (S w) (d * 10 ^ Z.of_nat w + n) = String (digit_char d) (pad w n).
Proof.
  induction w as [| w IH]; intros d n Hd Hn.
  - cbn in Hn. assert (n = 0) as -> by lia. unfold pad. cbn.
    rewrite Z.mul_1_r, Z.add_0_r. now rewrite Z.mod_small by lia.
  - rewrite pad_succ.
    assert (Hp : 10 ^ Z.of_nat (S w) = 10 * 10 ^ Z.of_nat w)
      by (rewrite Nat2Z.inj_succ, Z.pow_succ_r; lia).
    assert (Hpos : 0 < 10 ^ Z.of_nat w) by (apply Z.pow_pos_nonneg; lia).
    rewrite Hp in *.
    replace ((d * (10 * 10 ^ Z.of_nat w) + n) / 10) with (d * 10 ^ Z.of_nat w + n / 10)
      by (Z.div_mod_to_equations; nia).
    replace ((d * (10 * 10 ^ Z.of_nat w) + n) mod 10) with (n mod 10)
      by (Z.div_mod_to_equations; nia).
    rewrite IH; [| exact Hd | Z.div_mod_to_equations; nia].
    rewrite (pad_succ w n). reflexivity.
Qed.

Lemma append_nil_r (a : string) : (a ++ "")%string = a.
Proof. induction a as [| x a IH]; cbn; [reflexivity | now rewrite IH]. Qed.

Lemma read_digits_spec n :
  forall s acc v rest,
    read_digits n s acc = Some (v, rest) ->
    exists w, 0 <= w < 10 ^ Z.of_nat n /\ v = acc * 10 ^ Z.of_nat n + w
              /\ s = (pad n w ++ rest)%string.
Proof.
  induction n as [| n IH]; intros s acc v rest; cbn [read_digits].
  - intros [= <- <-]. exists 0. cbn. repeat split; lia.
  - destruct s as [| c r]; [discriminate |].
    destruct (digit c) as [d |] eqn:E; [| discriminate].
    intros H. destruct (IH _ _ _ _ H) as (w & Hw & Hv & Hr).
    destruct (digit_char_of_digit c d E) as [-> Hd].
    assert (Hp : 10 ^ Z.of_nat (S n) = 10 * 10 ^ Z.of_nat n)
      by (rewrite Nat2Z.inj_succ, Z.pow_succ_r; lia).
    exists (d * 10 ^ Z.of_nat n + w). rewrite Hp. repeat split; try nia.
    rewrite pad_head by assumption. cbn. now rewrite Hr.
Qed.

Lemma parse_ymd_spec s c :
  parse_ymd s = Some c ->
  0 <= fst (fst c) <= 9999 /\ valid_civil c /\ day_key c = s.
Proof.
  unfold parse_ymd.
  destruct (read_digits 4 s 0) as [[y r] |] eqn:Ey; [| discriminate].
  destruct r as [| c1 r1]; [discriminate |].
  destruct (Ascii.eqb_spec c1 "-") as [-> | Hc1];
    [| destruct c1 as [[] [] [] [] [] [] [] []]; try discriminate; now destruct Hc1].
  destruct (read_digits 2 r1 0) as [[m r] |] eqn:Em; [| discriminate].
  destruct r as [| c2 r2]; [discriminate |].
  destruct (Ascii.eqb_spec c2 "-") as [-> | Hc2];
    [| destruct c2 as [[] [] [] [] [] [] [] []]; try discriminate; now destruct Hc2].
  destruct (read_digits 2 r2 0) as [[d r] |] eqn:Ed; [| discriminate].
  destruct r; [| discriminate].
  destruct ((1 <=? m) && (m <=? 12) && (1 <=? d) && (d <=? days_in_month y m)) eqn:E;
    [| discriminate].
  intros [= <-].
  repeat (apply andb_true_iff in E as [E ?]).
  apply Z.leb_le in E. repeat match goal with H : (_ <=? _) = true |- _ => apply Z.leb_le in H end.
  destruct (read_digits_spec _ _ _ _ _ Ey) as (wy & Hwy & -> & ->).
  destruct (read_digits_spec _ _ _ _ _ Em) as (wm & Hwm & -> & ->).
  destruct (read_digits_spec _ _ _ _ _ Ed) as (wd & Hwd & -> & ->).
  cbn [fst Z.of_nat] in *. rewrite !Z.mul_0_l, !Z.add_0_l in *.
  split; [change (10 ^ Z.pos 4) with 10000 in Hwy; lia |].
  split; [split; lia |].
  unfold day_key. now rewrite append_nil_r.
Qed.

Lemma key_of_day_number c :
  valid_civil c -> 0 <= fst (fst c) <= 9999 -> key (day_number c) = day_key c.
Proof.
  destruct c as [[y m] d]. cbn [fst]. intros Hv Hy.
  destruct (civil_of_day_number y m d 0 Hv ltac:(unfold msPerDay; lia))
    as (HY & HM & HD).
  rewrite Z.add_0_r in HY, HM, HD.
  unfold key, toISOString, year_string. rewrite HY, HM, HD.
  replace ((0 <=? y) && (y <=? 9999)) with true
    by (symmetry; apply andb_true_iff; split; apply Z.leb_le; lia).
  replace (m - 1 + 1) with m by lia.
  rewrite before_T_pad. cbn [append before_T]. change (Ascii.eqb "-" "T") with false.
  cbv iota. rewrite before_T_pad. cbn [append before_T].
  change (Ascii.eqb "-" "T") with false. cbv iota.
  rewrite before_T_pad. cbn [append before_T].
  change (Ascii.eqb "T" "T") with true. cbv iota.
  unfold day_key. now rewrite append_nil_r.
Qed.

Lemma lts_append (p r1 r2 : string) :
  String_as_OT.lt r1 r2 -> String_as_OT.lt (p ++ r1) (p ++ r2).
Proof.
  intros H. induction p as [| c p IH]; cbn; [exact H |].
  now apply String_as_OT.lts_tail.
Qed.

Lemma pad_lt w :
  forall a b r1 r2,
    0 <= a -> a < b -> b < 10 ^ Z.of_nat w ->
    String_as_OT.lt (pad w a ++ r1) (pad w b ++ r2).
Proof.
  induction w as [| w IH]; intros a b r1 r2 Ha Hab Hb.
  - cbn in Hb. lia.
  - assert (Hp : 10 ^ Z.of_nat (S w) = 10 * 10 ^ Z.of_nat w)
      by (rewrite Nat2Z.inj_succ, Z.pow_succ_r; lia).
    rewrite Hp in Hb. rewrite !pad_succ, !append_assoc.
    destruct (Z.eq_dec (a / 10) (b / 10)) as [Heq | Hne].
    + rewrite Heq. apply lts_append. cbn. apply String_as_OT.lts_head.
      rewrite !digit_char_code by (apply Z.mod_pos_bound; lia).
      Z.div_mod_to_equations. lia.
    + apply IH; Z.div_mod_to_equations; lia.
Qed.

Lemma day_key_next c :
  valid_civil c -> 0 <= fst (fst c) -> fst (fst (next_day c)) <= 9999 ->
  String_as_OT.lt (day_key c) (day_key (next_day c)).
Proof.
  destruct c as [[y m] d]. intros [Hm Hd] Hy. cbn [fst] in Hy.
  unfold next_day, day_key.
  assert (Hdm : days_in_month y m <= 31)
    by (destruct (is_leap y) eqn:EL; months m; tables; lia).
  destruct (d <? days_in_month y m) eqn:E1;
    [apply Z.ltb_lt in E1 | apply Z.ltb_ge in E1]; cbn [fst].
  - intros _. apply lts_append. cbn [append]. apply String_as_OT.lts_tail.
    apply lts_append. cbn [append]. apply String_as_OT.lts_tail.
    rewrite <- (append_nil_r (pad 2 d)), <- (append_nil_r (pad 2 (d + 1))).
    apply (pad_lt 2); try change (10 ^ Z.of_nat 2) with 100; lia.
  - destruct (m <? 12) eqn:E2; [apply Z.ltb_lt in E2 | apply Z.ltb_ge in E2];
      cbn [fst]; intros Hy'.
    + apply lts_append. cbn [append]. apply String_as_OT.lts_tail.
      apply (pad_lt 2); try change (10 ^ Z.of_nat 2) with 100; lia.
    + apply (pad_lt 4); try change (10 ^ Z.of_nat 4) with 10000; lia.
Qed.

Lemma year_le a b :
  valid_civil a -> valid_civil b -> day_number a <= day_number b ->
  fst (fst a) <= fst (fst b).
Proof.
  destruct a as [[ya ma] da], b as [[yb mb] db]. cbn [fst]. intros Ha Hb H.
  destruct (day_number_within _ _ _ Ha) as [Ea Wa].
  destruct (day_number_within _ _ _ Hb) as [Eb Wb].
  destruct (Z_le_gt_dec ya yb) as [Hle | Hgt]; [exact Hle | exfalso].
  pose proof (DayFromYear_mono (yb + 1) ya ltac:(lia)).
  pose proof (DayFromYear_step yb). lia.
Qed.

Lemma next_day_year c : fst (fst c) <= fst (fst (next_day c)).
Proof.
  destruct c as [[y m] d]. unfold next_day.
  destruct (d <? days_in_month y m); [cbn; lia |].
  destruct (m <? 12); cbn; lia.
Qed.

Lemma calendar_days_keys (b : civil) :
  valid_civil b -> fst (fst b) <= 9999 ->
  forall n a,
    valid_civil a -> 0 <= fst (fst a) ->
    day_number a + Z.of_nat n - 1 <= day_number b ->
    map (fun i => key (day_number a + Z.of_nat i)) (seq 0 n)
    = map day_key (calendar_days n a)
    /\ Sorted String_as_OT.lt (map day_key (calendar_days n a)).
Proof.
  intros Hb Hyb. induction n as [| n IH]; intros a Ha Hya Hn.
  - split; [reflexivity | constructor].
  - destruct (next_day_spec a Ha) as [Hv' Hn'].
    pose proof (next_day_year a) as Hy'.
    destruct (IH (next_day a) Hv' ltac:(lia) ltac:(lia)) as [IH1 IH2].
    pose proof (year_le a b Ha Hb ltac:(lia)) as Hle.
    cbn [seq map calendar_days]. split.
    + f_equal.
      * rewrite Z.add_0_r. apply key_of_day_number; [exact Ha | lia].
      * rewrite <- IH1, <- seq_shift, map_map. apply map_ext.
        intros i. f_equal. lia.
    + constructor; [exact IH2 |].
      destruct n as [| n]; cbn [calendar_days map]; constructor.
      apply day_key_next; [exact Ha | exact Hya |].
      pose proof (year_le (next_day a) b Hv' Hb ltac:(lia)). lia.
Qed.

Lemma calendar_days_last (b : civil) :
  valid_civil b ->
  forall n a dflt,
    valid_civil a -> day_number a + Z.of_nat n = day_number b ->
    last (calendar_days (S n) a) dflt = b.
Proof.
  intros Hb. induction n as [| n IH]; intros a dflt Ha Hn.
  - cbn. apply day_number_inj; [exact Ha | exact Hb | lia].
  - destruct (next_day_spec a Ha) as [Hv' Hn'].
    change (calendar_days (S (S n)) a)
      with (a :: calendar_days (S n) (next_day a)).
    cbn [last]. change (calendar_days (S n) (next_day a))
      with (next_day a :: calendar_days n (next_day (next_day a))).
    change (next_day a :: calendar_days n (next_day (next_day a)))
      with (calendar_days (S n) (next_day a)).
    apply IH; [exact Hv' | lia].
Qed.

Lemma length_calendar_days n : forall a, List.length (calendar_days n a) = n.
Proof. induction n as [| n IH]; intros a; cbn; [reflexivity | now rewrite IH]. Qed.

Lemma sorted_keys_nodup (l : list string) :
  StronglySorted String_as_OT.lt l -> NoDup l.
Proof.
  induction 1 as [| x l _ IH Hall]; constructor; [| exact IH].
  intros Hin. rewrite Forall_forall in Hall.
  apply (String_as_OT.lt_not_eq x x (Hall x Hin)). reflexivity.
Qed.

Lemma last_map_cons {A B} (f : A -> B) (l : list A) :
  forall x d1 d2, last (map f (x :: l)) d1 = f (last (x :: l) d2).
Proof.
  induction l as [| y l IH]; intros x d1 d2; [reflexivity |].
  change (last (map f (x :: y :: l)) d1) with (last (map f (y :: l)) d1).
  change (last (x :: y :: l) d2) with (last (y :: l) d2).
  apply IH.
Qed.

(** *** The names [calculateSummary] collects *)

Lemma existsb_eqb_In (n : string) (names : list string) :
  existsb (String.eqb n) names = true <-> In n names.
Proof.
  rewrite existsb_exists. split.
  - intros (x & Hin & Heq). apply String.eqb_eq in Heq. now subst.
  - intros H. exists n. split; [exact H | apply String.eqb_refl].
Qed.

Lemma Set_add_In (names : list string) (n x : string) :
  In x (Set_add names n) <-> In x names \/ x = n.
Proof.
  unfold Set_add. destruct (existsb (String.eqb n) names) eqn:E.
  - apply existsb_eqb_In in E. split; [auto | intros [H | ->]; assumption].
  - rewrite in_app_iff. cbn. intuition.
Qed.

Lemma Set_add_NoDup (names : list string) (n : string) :
  NoDup names -> NoDup (Set_add names n).
Proof.
  intros H. unfold Set_add. destruct (existsb (String.eqb n) names) eqn:E; [exact H |].
  apply NoDup_app; [exact H | repeat constructor; intros [] | ].
  intros x Hx [<- | []].
  apply existsb_eqb_In in Hx. congruence.
Qed.

Lemma fold_Set_add (keys : list string) :
  forall names,
    NoDup names ->
    NoDup (fold_left Set_add keys names)
    /\ forall x, In x (fold_left Set_add keys names) <-> In x names \/ In x keys.
Proof.
  induction keys as [| k keys IH]; intros names Hnd; cbn [fold_left].
  - split; [exact Hnd |]. intros x. cbn. tauto.
  - destruct (IH (Set_add names k) (Set_add_NoDup names k Hnd)) as [H1 H2].
    split; [exact H1 |]. intros x. rewrite H2, Set_add_In. cbn. intuition.
Qed.

Lemma collect_from (covs : list coverage_map) :
  forall names,
    NoDup names ->
    let r := fold_left (fun names cov => fold_left Set_add (Object_keys cov) names)
               covs names in
    NoDup r
    /\ forall x, In x r <-> In x names \/ In x (flat_map Object_keys covs).
Proof.
  induction covs as [| cov covs IH]; intros names Hnd; cbn [fold_left flat_map].
  - split; [exact Hnd |]. intros x. cbn. tauto.
  - destruct (fold_Set_add (Object_keys cov) names Hnd) as [H1 H2].
    destruct (IH _ H1) as [H3 H4].
    split; [exact H3 |]. intros x. cbn zeta in H4. rewrite H4, H2, in_app_iff. tauto.
Qed.

Lemma collect_names_spec (covs : list coverage_map) :
  NoDup (collect_names covs)
  /\ forall x, In x (collect_names covs) <-> In x (flat_map Object_keys covs).
Proof.
  destruct (collect_from covs [] (NoDup_nil _)) as [H1 H2].
  split; [exact H1 |]. intros x. unfold collect_names. rewrite H2. cbn. tauto.
Qed.

(** *** Usage that is never counted *)

Lemma fold_left_ext_in {A B} (f g : A -> B -> A) (l : list B) :
  (forall x, In x l -> forall a, f a x = g a x) ->
  forall a, fold_left f l a = fold_left g l a.
Proof.
  induction l as [| x l IH]; intros H a; [reflexivity |]. cbn.
  rewrite (H x (or_introl eq_refl)). apply IH. intros y Hy. apply H. now right.
Qed.

Lemma summary_loop_ext (names : list string) (covs : list coverage_map)
  (U U' : list usage_list) :
  forall i t,
    (forall j n, (i <= j < i + List.length covs)%nat -> In n names ->
       match nth_error U j with Some u => find_usage u n | None => None end
       = match nth_error U' j with Some u => find_usage u n | None => None end) ->
    summary_loop names covs U i t = summary_loop names covs U' i t.
Proof.
  induction covs as [| cov covs IH]; intros i t H; [reflexivity |].
  cbn [summary_loop]. rewrite (IH (S i)).
  - f_equal. apply fold_left_ext_in. intros n Hn a. unfold summary_name.
    now rewrite (H i n ltac:(cbn; lia) Hn).
  - intros j n Hj Hn. apply H; [cbn; lia | exact Hn].
Qed.

Lemma nth_error_firstn_lt {A} (l : list A) :
  forall n j, (j < n)%nat -> nth_error (firstn n l) j = nth_error l j.
Proof.
  induction l as [| x l IH]; intros n j Hj.
  - now rewrite firstn_nil.
  - destruct n as [| n]; [lia |]. destruct j as [| j]; [reflexivity |].
    cbn. apply IH. lia.
Qed.

Lemma find_usage_filter (names : list string) (use : usage_list) (n : string) :
  In n names ->
  find_usage (filter (named_in names) use) n = find_usage use n.
Proof.
  intros Hn. unfold find_usage. induction use as [| u use IH]; [reflexivity |].
  cbn [filter find]. destruct (strict_eq (api_name u) n) eqn:E.
  - apply strict_eq_true in E. unfold named_in. rewrite E.
    replace (existsb (String.eqb n) names) with true
      by (symmetry; now apply existsb_eqb_In).
    cbn [find]. now rewrite E, (proj2 (strict_eq_true _ _) eq_refl).
  - destruct (named_in names u); [cbn [find]; now rewrite E | exact IH].
Qed.

(** *** Pairing by day *)

Lemma summary_fold_paired (fs : store) (days : list string) :
  (forall d, In d days -> paired fs d = true \/ pushes_nothing fs d) ->
  forall v,
    fold_left (fun v d => summary_day_vars fs d v) days v
    = {| allCoverage :=
           allCoverage v ++ map (coverage_of_day fs) (filter (paired fs) days);
         allUsage :=
           allUsage v ++ map (usage_of_day fs) (filter (paired fs) days) |}.
Proof.
  induction days as [| d days IH]; intros H v; cbn [fold_left filter map].
  - rewrite !app_nil_r. now destruct v.
  - rewrite IH by (intros d' Hd'; apply H; now right).
    destruct (H d (or_introl eq_refl)) as [Hp | Hn].
    + rewrite Hp. cbn [map]. unfold paired in Hp.
      unfold summary_day_vars, coverage_of_day, usage_of_day.
      destruct (coverage_file fs d) as [[m | cov] |]; try discriminate.
      destruct (usage_file fs d) as [[m | use] |]; try discriminate.
      cbn. f_equal; rewrite <- app_assoc; reflexivity.
    + assert (Hf : paired fs d = false /\ summary_day_vars fs d v = v).
      { unfold paired, summary_day_vars.
        destruct Hn as [[m ->] | [-> Hu]]; [now split |].
        destruct (usage_file fs d) as [[m | use] |]; [now split | | now split].
        now destruct (Hu use). }
      destruct Hf as [-> ->]. reflexivity.
Qed.

(** *** Directories that agree on the days of a range *)

Lemma for_of_ext {S A} (xs : list A) (body body' : A -> M S unit) :
  (forall x, In x xs -> forall s, body x s = body' x s) ->
  forall s, for_of xs body s = for_of xs body' s.
Proof.
  induction xs as [| x xs IH]; intros H s; [reflexivity |].
  cbn [for_of]. rewrite !bind_run, (H x (or_introl eq_refl)).
  destruct (body' x s) as [[[] | err] s']; [| reflexivity].
  apply IH. intros y Hy. apply H. now right.
Qed.

Lemma trends_day_ext (fs fs' : store) (d : string) :
  coverage_file fs d = coverage_file fs' d ->
  forall s, trends_day fs d s = trends_day fs' d s.
Proof.
  intros H s. unfold trends_day, existsSync, readJson. now rewrite H.
Qed.

Lemma summary_day_ext (fs fs' : store) (d : string) :
  coverage_file fs d = coverage_file fs' d ->
  usage_file fs d = usage_file fs' d ->
  forall s, summary_day fs d s = summary_day fs' d s.
Proof.
  intros Hc Hu [v t]. rewrite !summary_day_run.
  unfold summary_day_vars, summary_day_trace. now rewrite Hc, Hu.
Qed.

(** *** The trace of [/api/coverage-trends] *)

Lemma trends_day_run_trace (fs : store) (d : string) :
  objects fs -> (forall m, coverage_file fs d <> Some (Malformed m)) ->
  forall trends t,
    trends_day fs d (trends, t)
    = (Return tt, (trends ++ trend_points fs [d], t ++ trends_day_trace fs d)).
Proof.
  intros Hobj Hok trends t. rewrite trend_points_one.
  unfold trends_day, trends_day_trace, coverage_of_day. run_M.
  destruct (coverage_file fs d) as [[m | cov] |] eqn:E; run_M.
  - now destruct (Hok m).
  - destruct (Nat.eqb (List.length (Object_keys cov)) 0).
    + now rewrite app_nil_r, <- app_assoc.
    + rewrite (sum_percent_run cov cov)
        by (intros; apply get_of_entry; [now apply (Hobj d) | assumption]).
      now rewrite <- app_assoc.
  - now rewrite app_nil_r.
Qed.

Lemma trends_days_run_trace (fs : store) (days : list string) :
  objects fs ->
  (forall d, In d days -> forall m, coverage_file fs d <> Some (Malformed m)) ->
  forall trends t,
    for_of days (trends_day fs) (trends, t)
    = (Return tt,
       (trends ++ trend_points fs days, t ++ flat_map (trends_day_trace fs) days)).
Proof.
  intros Hobj. induction days as [| d days IH]; intros Hok trends t.
  - cbn. now rewrite !app_nil_r.
  - cbn [for_of flat_map]. rewrite bind_run.
    rewrite (trends_day_run_trace fs d Hobj (Hok d (or_introl eq_refl))).
    rewrite (IH (fun d' H => Hok d' (or_intror H))).
    now rewrite (trend_points_cons fs d days), !app_assoc.
Qed.

Lemma for_of_app {S A} (xs ys : list A) (body : A -> M S unit) (s : S * list event) :
  for_of (xs ++ ys) body s
  = match for_of xs body s with
    | (Return _, s') => for_of ys body s'
    | (Throw e, s') => (Throw e, s')
    end.
Proof.
  revert s. induction xs as [| x xs IH]; intros s; [reflexivity |].
  cbn [app for_of]. rewrite !bind_run.
  destruct (body x s) as [[[] | err] s']; [apply IH | reflexivity].
Qed.

(** *** Failures of the single-day handlers *)

Lemma parses_dec (fs : store) (d : string) :
  parses fs d
  \/ (exists m, coverage_file fs d = Some (Malformed m))
  \/ ((forall m, coverage_file fs d <> Some (Malformed m))
      /\ exists m, usage_file fs d = Some (Malformed m)).
Proof.
  unfold parses.
  destruct (coverage_file fs d) as [[m | cov] |]; [right; left; eauto | |];
    (destruct (usage_file fs d) as [[m' | use] |];
     [right; right; split; [discriminate | eauto]
     | left; split; discriminate
     | left; split; discriminate]).
Qed.

Lemma single_day_failures (fs : store) (d : string) :
  missing (Some d) = false ->
  ~ parses fs d ->
  exists t,
    api_coverage_usage fs (Some d) = (Failed 500 "Internal server error", t)
    /\ api_apis fs (Some d) = (Failed 500 "Internal server error", t).
Proof.
  intros Hd Hn. unfold api_coverage_usage, api_apis. rewrite Hd.
  unfold handle, coverage_usage_body, apis_body. rewrite !bind_run, !load_run.
  destruct (parses_dec fs d) as [Hp | [[m Hc] | [Hc [m Hu]]]]; [now destruct Hn | |].
  - rewrite Hc. eexists. split; reflexivity.
  - destruct (coverage_file fs d) as [[m' | cov] |]; [now destruct (Hc m') | |];
      rewrite !bind_run, !load_run, Hu; eexists; split; reflexivity.
Qed.

(** *** A single coverage object *)

Lemma fold_Set_add_fresh (keys : list string) :
  forall names, NoDup (names ++ keys) -> fold_left Set_add keys names = names ++ keys.
Proof.
  induction keys as [| k keys IH]; intros names H; cbn [fold_left].
  - now rewrite app_nil_r.
  - assert (Hk : existsb (String.eqb k) names = false).
    { destruct (existsb (String.eqb k) names) eqn:E; [| reflexivity].
      apply existsb_eqb_In in E. apply NoDup_remove_2 in H.
      exfalso. apply H. apply in_or_app. now left. }
    unfold Set_add at 2. rewrite Hk, IH; rewrite <- app_assoc; [reflexivity | exact H].
Qed.

Lemma summary_names_totals (cov : coverage_map) (use : option usage_list)
  (l : coverage_map) :
  (forall n api, In (n, api) l -> get cov n = Some api) ->
  forall t,
    totalCoverage (fold_left (summary_name cov use) (Object_keys l) t)
    = fold_left PrimFloat.add (map percent (map snd l)) (totalCoverage t)
    /\ count (fold_left (summary_name cov use) (Object_keys l) t)
       = (count t + List.length l)%nat.
Proof.
  induction l as [| [n api] l IH]; intros H t.
  - cbn. split; [reflexivity | lia].
  - cbn [Object_keys map fold_left fst snd List.length].
    change (map fst l) with (Object_keys l).
    destruct (IH (fun n' api' Hin => H n' api' (or_intror Hin))
                (summary_name cov use t n)) as [H1 H2].
    rewrite H1, H2. unfold summary_name. rewrite (H n api (or_introl eq_refl)).
    destruct (match use with Some u => find_usage u n | None => None end);
      cbn [totalCoverage count]; split; (reflexivity || lia).
Qed.

Lemma calculateSummary_single (cov : coverage_map) (allUsage : list usage_list) :
  NoDup (Object_keys cov) -> cov <> [] ->
  avgCoverage (calculateSummary [cov] allUsage) = mean (map percent (map snd cov))
  /\ totalAPIs (calculateSummary [cov] allUsage) = List.length cov.
Proof.
  intros Hnd Hne. unfold calculateSummary, collect_names.
  cbn [fold_left summary_loop avgCoverage totalAPIs].
  rewrite (fold_Set_add_fresh (Object_keys cov) []) by exact Hnd. cbn [app].
  destruct (summary_names_totals cov (nth_error allUsage 0) cov
              (fun n api => get_of_entry cov n api Hnd)
              {| totalCoverage := pos_zero; calls := pos_zero; count := 0 |})
    as [H1 H2].
  rewrite H1, H2. cbn [totalCoverage count Nat.add].
  split; [| unfold Object_keys; apply length_map].
  destruct cov as [| x cov]; [now destruct Hne |].
  unfold mean. now rewrite !length_map.
Qed.

(** *** The head of the range *)

Lemma new_Date_ymd (h : host) (s : string) (a : civil) :
  parse_ymd s = Some a -> new_Date h s = Some (day_number a * msPerDay).
Proof.
  intros Hs. destruct (parse_ymd_spec s a Hs) as (Hy & Hv & _).
  unfold new_Date, parse. rewrite Hs. destruct a as [[y m] d]. cbn [fst] in Hy.
  change (MakeDay y (m - 1) d) with (day_number (y, m, d)).
  destruct (day_number_within _ _ _ Hv) as [E W].
  pose proof (DayFromYear_mono 0 y ltac:(lia)) as L1.
  pose proof (DayFromYear_mono (y + 1) 10000 ltac:(lia)) as L2.
  pose proof (DayFromYear_step y) as L3.
  change (DayFromYear 0) with (-719528) in L1.
  change (DayFromYear 10000) with 2932897 in L2.
  unfold MakeDate, TimeClip. rewrite Z.add_0_r.
  now replace (8640000000000000 <? Z.abs (day_number (y, m, d) * msPerDay))
    with false by (symmetry; apply Z.ltb_ge; unfold msPerDay; lia).
Qed.

Lemma range_loop_prefix (h : host) (fuel : nat) :
  forall t te acc r,
    range_loop h fuel t te acc = Some r -> exists rest, r = acc ++ rest.
Proof.
  induction fuel as [| fuel IH]; intros t te acc r; [discriminate |].
  cbn [range_loop]. destruct (t <=? te).
  - destruct (setDate h t (getDate h t + 1)) as [t' |].
    + intros H. destruct (IH _ _ _ _ H) as [rest ->].
      rewrite <- app_assoc. eauto.
    + intros [= <-]. eauto.
  - intros [= <-]. exists []. now rewrite app_nil_r.
Qed.

(** *** Strings of digits *)

Lemma is_ws_digit (c : ascii) (d : Z) : digit c = Some d -> is_ws c = false.
Proof.
  intros H. destruct (digit_code c d H) as [Hd Hc]. unfold is_ws, code.
  rewrite Hc.
  repeat match goal with
         | |- context [?a <=? ?b] =>
             let E := fresh in destruct (Z.leb_spec a b) as [E | E]
         | |- context [?a =? ?b] =>
             let E := fresh in destruct (Z.eqb_spec a b) as [E | E]
         end; cbn; try reflexivity; lia.
Qed.

Lemma rev_string_rev (s : string) :
  forall a b, rev_string (rev_string s a) b = rev_string a (s ++ b)%string.
Proof.
  induction s as [| c s IH]; intros a b; [reflexivity |].
  cbn [rev_string]. rewrite IH. reflexivity.
Qed.

Lemma rev_string_head (s : string) :
  forall acc,
    all_digits s = true ->
    (acc = EmptyString \/ exists c d r, acc = String c r /\ digit c = Some d) ->
    s <> EmptyString \/ acc <> EmptyString ->
    exists c d r, rev_string s acc = String c r /\ digit c = Some d.
Proof.
  induction s as [| c s IH]; intros acc Hs Hacc Hne; cbn [rev_string].
  - destruct Hacc as [-> | H]; [destruct Hne as [H | H]; now destruct H | exact H].
  - cbn [all_digits] in Hs. destruct (digit c) as [d |] eqn:E; [| discriminate].
    apply IH; [exact Hs | right; eauto | right; discriminate].
Qed.

Lemma trim_digit_string (s : string) : digit_string s -> trim s = s /\ trim_start s = s.
Proof.
  intros [Hne Hs].
  assert (Hstart : trim_start s = s).
  { destruct s as [| c r]; [reflexivity |]. cbn [all_digits] in Hs.
    destruct (digit c) as [d |] eqn:E; [| discriminate].
    cbn [trim_start]. now rewrite (is_ws_digit c d E). }
  split; [| exact Hstart]. unfold trim, trim_end. rewrite Hstart.
  destruct (rev_string_head s EmptyString Hs (or_introl eq_refl) (or_introl Hne))
    as (c & d & r & Hr & Hd).
  rewrite Hr. cbn [trim_start]. rewrite (is_ws_digit c d Hd), <- Hr.
  rewrite rev_string_rev. cbn [rev_string]. apply append_nil_r.
Qed.

Lemma take_digits_all (s : string) :
  all_digits s = true ->
  forall acc n,
    exists v, take_digits 10 s acc n = (v, n + Z.of_nat (String.length s), EmptyString).
Proof.
  induction s as [| c s IH]; intros Hs acc n; cbn [take_digits String.length].
  - exists acc. now rewrite Z.add_0_r.
  - cbn [all_digits] in Hs. unfold digit in Hs.
    destruct (digit_of 10 c) as [d |]; [| discriminate].
    destruct (IH Hs (acc * 10 + d) (n + 1)) as [v ->]. exists v.
    do 2 f_equal. lia.
Qed.

Lemma digit_string_value (s : string) :
  digit_string s ->
  exists v n, take_digits 10 s 0 0 = (v, n, EmptyString) /\ 0 <= v /\ 1 <= n.
Proof.
  intros [Hne Hs]. destruct (take_digits_all s Hs 0 0) as [v Hv].
  exists v, (0 + Z.of_nat (String.length s)). split; [exact Hv |]. split.
  - apply (take_digits_nonneg 10 s ltac:(lia) 0 0 v _ _ ltac:(lia) Hv).
  - destruct s; [now destruct Hne | cbn [String.length]; lia].
Qed.

Lemma of_Z_nonneg (v : Z) : 0 <= v -> of_Z v = round_ratio false v 1.
Proof.
  intros H. unfold of_Z.
  replace (v <? 0) with false by (symmetry; apply Z.ltb_ge; lia).
  now replace (Z.abs v) with v by lia.
Qed.

Lemma unsigned_decimal_digits (s : string) (v n : Z) :
  take_digits 10 s 0 0 = (v, n, EmptyString) -> 0 <= v -> 1 <= n ->
  unsigned_decimal false s = of_Z v.
Proof.
  intros Ht Hv Hn. unfold unsigned_decimal. rewrite Ht. cbv beta iota.
  replace (n + 0 =? 0) with false by (symmetry; apply Z.eqb_neq; lia).
  unfold exponent_part, round_decimal.
  destruct (Z.eqb_spec v 0) as [-> | Hne]; [reflexivity |].
  change (400 <? 0 - 0) with false. cbv iota.
  replace (0 - 0 + (n + 0) <? -400) with false by (symmetry; apply Z.ltb_ge; lia).
  change (0 <=? 0 - 0) with true. cbv iota.
  change (10 ^ (0 - 0)) with 1. rewrite Z.mul_1_r. symmetry. now apply of_Z_nonneg.
Qed.

Lemma not_prefix_code (c : ascii) (d : Z) :
  digit c = Some d ->
  ((code c =? 120) || (code c =? 88) = false)
  /\ ((code c =? 111) || (code c =? 79) = false)
  /\ ((code c =? 98) || (code c =? 66) = false).
Proof.
  intros H. destruct (digit_code c d H) as [Hd Hc]. unfold code. rewrite Hc.
  repeat split; apply orb_false_iff; split; apply Z.eqb_neq; lia.
Qed.

Lemma StringToNumber_digits (s : string) :
  digit_string s -> StringToNumber s = unsigned_decimal false s.
Proof.
  intros Hds. destruct (trim_digit_string s Hds) as [Htrim _].
  destruct Hds as [Hne Hs]. unfold StringToNumber. rewrite Htrim.
  destruct s as [| c0 rest]; [now destruct Hne |].
  cbn [all_digits] in Hs. destruct (digit c0) as [d0 |] eqn:Hd0; [| discriminate].
  assert (Hinf : String.eqb (String c0 rest) "Infinity" = false).
  { apply String.eqb_neq. intros [= -> _]. vm_compute in Hd0. discriminate. }
  destruct c0 as [[] [] [] [] [] [] [] []];
    vm_compute in Hd0; try discriminate Hd0; cbv beta iota;
    try (rewrite Hinf; reflexivity).
  destruct rest as [| c1 r1]; [rewrite Hinf; reflexivity |].
  cbn [all_digits] in Hs. destruct (digit c1) as [d1 |] eqn:Hd1; [| discriminate].
  destruct (not_prefix_code c1 d1 Hd1) as (-> & -> & ->). reflexivity.
Qed.

Lemma sign_of_digit_string (c0 : ascii) (rest : string) (d0 : Z) :
  digit c0 = Some d0 ->
  match String c0 rest with
  | String "-" r => (true, r)
  | String "+" r => (false, r)
  | _ => (false, String c0 rest)
  end = (false, String c0 rest).
Proof.
  intros Hd0.
  destruct c0 as [[] [] [] [] [] [] [] []];
    vm_compute in Hd0; try discriminate Hd0; reflexivity.
Qed.

(** *** Division by zero and NaN *)

Lemma SF_nan (x : number) : Prim2SF x = S754_nan -> x = NaN.
Proof. intros H. apply FloatAxioms.Prim2SF_inj. rewrite H. reflexivity. Qed.

Lemma nan_add_l (x : number) : (NaN + x)%float = NaN.
Proof. apply SF_nan. rewrite FloatAxioms.add_spec. reflexivity. Qed.

Lemma nan_add_r (x : number) : (x + NaN)%float = NaN.
Proof.
  apply SF_nan. rewrite FloatAxioms.add_spec. change (Prim2SF NaN) with S754_nan.
  now destruct (Prim2SF x).
Qed.

Lemma nan_div_l (x : number) : (NaN / x)%float = NaN.
Proof. apply SF_nan. rewrite FloatAxioms.div_spec. reflexivity. Qed.

Lemma nan_mul_l (x : number) : (NaN * x)%float = NaN.
Proof. apply SF_nan. rewrite FloatAxioms.mul_spec. reflexivity. Qed.

Lemma is_zero_SF (x : number) :
  is_zero x = true -> exists s, Prim2SF x = S754_zero s.
Proof.
  unfold is_zero. rewrite FloatAxioms.eqb_spec. change (Prim2SF zero) with (S754_zero false).
  destruct (Prim2SF x) as [s | s | | s m e]; [eauto | | discriminate |];
    destruct s; discriminate.
Qed.

Lemma div_by_zero_SF (x y : number) :
  is_zero y = true ->
  Prim2SF (x / y)%float = S754_nan \/ exists s, Prim2SF (x / y)%float = S754_infinity s.
Proof.
  intros Hy. destruct (is_zero_SF y Hy) as [s Hs].
  rewrite FloatAxioms.div_spec, Hs. unfold FloatAxioms.SF64div, SFdiv.
  destruct (Prim2SF x); eauto.
Qed.

Lemma zero_by_zero (x y : number) :
  is_zero x = true -> is_zero y = true -> (x / y)%float = NaN.
Proof.
  intros Hx Hy. destruct (is_zero_SF x Hx) as [s Hs]. destruct (is_zero_SF y Hy) as [s' Hs'].
  apply SF_nan. rewrite FloatAxioms.div_spec, Hs, Hs'. reflexivity.
Qed.

Lemma times_100_SF (x : number) :
  (Prim2SF x = S754_nan -> Prim2SF (x * 100)%float = S754_nan)
  /\ (forall s, Prim2SF x = S754_infinity s -> Prim2SF (x * 100)%float = S754_infinity s).
Proof.
  split; [intros H | intros s H]; rewrite FloatAxioms.mul_spec, H.
  - reflexivity.
  - vm_compute. now destruct s.
Qed.

Lemma not_finite_SF (x : number) :
  (Prim2SF x = S754_nan -> is_nan x = true /\ is_finite x = false)
  /\ (forall s, Prim2SF x = S754_infinity s ->
        is_nan x = false /\ is_zero x = false /\ is_infinity x = true
        /\ is_finite x = false /\ (x <? 0)%float = s).
Proof.
  unfold is_finite, is_nan, is_zero, is_infinity.
  rewrite !FloatAxioms.eqb_spec, FloatAxioms.ltb_spec, FloatAxioms.abs_spec. split; [intros -> | intros s ->].
  - split; reflexivity.
  - destruct s; repeat split; reflexivity.
Qed.

(** *** NaN in the averages *)

Lemma fold_add_nan (xs : list number) :
  forall acc, acc = NaN \/ In NaN xs -> fold_left PrimFloat.add xs acc = NaN.
Proof.
  induction xs as [| x xs IH]; intros acc H; cbn [fold_left].
  - destruct H as [H | []]. exact H.
  - apply IH. destruct H as [-> | [-> | H]];
      [left; apply nan_add_l | left; apply nan_add_r | right; exact H].
Qed.

Lemma mean_nan (xs : list number) : In NaN xs -> mean xs = NaN.
Proof.
  intros H. unfold mean. rewrite (fold_add_nan xs pos_zero (or_intror H)).
  apply nan_div_l.
Qed.

Lemma summary_name_poisoned (cov : coverage_map) (use : option usage_list)
  (t : totals) (n : string) :
  poisoned t -> poisoned (summary_name cov use t n).
Proof.
  intros [Ht Hc]. unfold summary_name, poisoned.
  destruct (get cov n) as [a |];
    destruct (match use with Some u => find_usage u n | None => None end);
    cbn [totalCoverage count]; rewrite ?Ht, ?nan_add_l; split; (reflexivity || lia).
Qed.

Lemma summary_names_poisoned (cov : coverage_map) (use : option usage_list)
  (names : list string) :
  forall t, poisoned t -> poisoned (fold_left (summary_name cov use) names t).
Proof.
  induction names as [| n names IH]; intros t H; [exact H |].
  cbn [fold_left]. apply IH, summary_name_poisoned, H.
Qed.

Lemma summary_names_poison (cov : coverage_map) (use : option usage_list)
  (n : string) (api : CoverageRecord) (names : list string) :
  get cov n = Some api -> percent api = NaN -> In n names ->
  forall t, poisoned (fold_left (summary_name cov use) names t).
Proof.
  intros Hg Hp. induction names as [| k names IH]; intros Hin t; [contradiction |].
  cbn [fold_left]. destruct Hin as [-> | Hin]; [| now apply IH].
  apply summary_names_poisoned. unfold summary_name, poisoned. rewrite Hg, Hp.
  destruct (match use with Some u => find_usage u n | None => None end);
    cbn [totalCoverage count]; rewrite nan_add_r; split; (reflexivity || lia).
Qed.

Lemma summary_loop_poisoned (names : list string) (allUsage : list usage_list)
  (covs : list coverage_map) :
  forall i t, poisoned t -> poisoned (summary_loop names covs allUsage i t).
Proof.
  induction covs as [| cov covs IH]; intros i t H; [exact H |].
  cbn [summary_loop]. apply IH, summary_names_poisoned, H.
Qed.

Lemma summary_loop_poison (names : list string) (allUsage : list usage_list)
  (cov : coverage_map) (n : string) (api : CoverageRecord)
  (covs : list coverage_map) :
  get cov n = Some api -> percent api = NaN -> In n names -> In cov covs ->
  forall i t, poisoned (summary_loop names covs allUsage i t).
Proof.
  intros Hg Hp Hn. induction covs as [| c covs IH]; intros Hin i t; [contradiction |].
  cbn [summary_loop]. destruct Hin as [-> | Hin]; [| now apply IH].
  apply summary_loop_poisoned. now apply (summary_names_poison cov _ n api).
Qed.

Lemma calculateSummary_nan (allCoverage : list coverage_map)
  (allUsage : list usage_list) (cov : coverage_map) (n : string)
  (api : CoverageRecord) :
  In cov allCoverage -> In n (collect_names allCoverage) ->
  get cov n = Some api -> percent api = NaN ->
  avgCoverage (calculateSummary allCoverage allUsage) = NaN.
Proof.
  intros Hin Hn Hg Hp.
  destruct (summary_loop_poison (collect_names allCoverage) allUsage cov n api
              allCoverage Hg Hp Hn Hin 0%nat
              {| totalCoverage := pos_zero; calls := pos_zero; count := 0 |})
    as [Ht Hc].
  destruct allCoverage as [| c0 covs]; [contradiction |].
  unfold calculateSummary. cbn [avgCoverage].
  destruct (count _) as [| k] eqn:E; [lia |]. rewrite Ht. apply nan_div_l.
Qed.

Lemma summary_day_coverage (fs : store) (d : string) (v : summary_vars) :
  allCoverage (summary_day_vars fs d v)
  = allCoverage v ++ match coverage_file fs d with
                     | Some (Json cov) => [cov]
                     | _ => []
                     end.
Proof.
  unfold summary_day_vars.
  destruct (coverage_file fs d) as [[m | cov] |];
    destruct (usage_file fs d) as [[m' | use] |]; cbn; now rewrite ?app_nil_r.
Qed.

Lemma summary_vars_coverage (fs : store) (days : list string) (d : string)
  (cov : coverage_map) :
  In d days -> coverage_file fs d = Some (Json cov) ->
  In cov (allCoverage (summary_vars_of fs days)).
Proof.
  intros Hin Hc. unfold summary_vars_of.
  assert (Hkeep : forall days v, In cov (allCoverage v) ->
            In cov (allCoverage (fold_left (fun v d => summary_day_vars fs d v) days v))).
  { clear. induction days as [| d days IH]; intros v H; [exact H |].
    cbn [fold_left]. apply IH. rewrite summary_day_coverage. apply in_or_app. now left. }
  generalize {| allCoverage := []; allUsage := [] |}.
  induction days as [| d0 days IH]; intros v; [contradiction |].
  cbn [fold_left]. destruct Hin as [-> | Hin]; [| now apply IH].
  apply Hkeep. rewrite summary_day_coverage, Hc. apply in_or_app. right. now left.
Qed.

(** *** Counts that are Numbers or strings of digits *)


(** *** The points of [/api/coverage-trends], and its failure *)

Lemma trend_points_explicit (fs : store) (days : list string) :
  trend_points fs days
  = map (fun d =>
           {| date := d;
              trend_avgCoverage :=
                mean (map (fun na =>
                             ((ToNumber (covered_lines (snd na))
                               / ToNumber (full_size (snd na))) * 100)%float)
                        (coverage_of_day fs d)) |})
      (filter (fun d => negb (Nat.eqb (List.length (coverage_of_day fs d)) 0)) days).
Proof.
  induction days as [| d days IH]; [reflexivity |].
  rewrite trend_points_cons, IH. cbn [filter].
  unfold trend_points. cbn [flat_map]. rewrite app_nil_r.
  destruct (coverage_of_day fs d) as [| x cov] eqn:E; [reflexivity |].
  cbn [List.length Nat.eqb negb app].
  rewrite (map_cons _ d), E. cbn [app]. do 2 f_equal.
  now rewrite map_map.
Qed.

Lemma first_malformed (fs : store) (days : list string) (d m : string) :
  In d days -> coverage_file fs d = Some (Malformed m) ->
  exists before d' m' after,
    days = before ++ d' :: after
    /\ (forall x, In x before ->
                  forall m0, coverage_file fs x <> Some (Malformed m0))
    /\ coverage_file fs d' = Some (Malformed m').
Proof.
  induction days as [| x days IH]; intros Hin Hd; [contradiction |].
  destruct (coverage_file fs x) as [[mx | cov] |] eqn:E.
  - exists [], x, mx, days. repeat split; [contradiction | exact E].
  - destruct Hin as [-> | Hin]; [congruence |].
    destruct (IH Hin Hd) as (b & d' & m' & a & -> & Hb & Hd').
    exists (x :: b), d', m', a. repeat split; [| exact Hd'].
    intros y [<- | Hy] m0; [congruence | now apply Hb].
  - destruct Hin as [-> | Hin]; [congruence |].
    destruct (IH Hin Hd) as (b & d' & m' & a & -> & Hb & Hd').
    exists (x :: b), d', m', a. repeat split; [| exact Hd'].
    intros y [<- | Hy] m0; [congruence | now apply Hb].
Qed.

Lemma api_coverage_trends_abort (h : host) (fuel : nat) (fs : store)
  (s e d m : string) (before after : list string) :
  missing (Some s) = false -> missing (Some e) = false ->
  generateDateRange h fuel s e = Some (Dates (before ++ d :: after)) ->
  objects fs ->
  (forall d', In d' before -> forall m', coverage_file fs d' <> Some (Malformed m')) ->
  coverage_file fs d = Some (Malformed m) ->
  api_coverage_trends h fuel fs (Some s) (Some e)
  = Some (Failed 500 "Internal server error",
          flat_map (trends_day_trace fs) before
          ++ [ExistsSync Coverage d; ReadFileSync Coverage d;
              ConsoleError (SyntaxError m)]).
Proof.
  intros Hs He Hr Hobj Hok Hbad. unfold api_coverage_trends.
  rewrite Hs, He, Hr. cbn [orb].
  unfold handle, trends_from, for_of_range. rewrite bind_run, for_of_app.
  rewrite (trends_days_run_trace fs before Hobj Hok).
  cbn [for_of]. rewrite bind_run.
  unfold trends_day at 1. run_M. rewrite Hbad. cbn [app].
  now rewrite <- !app_assoc.
Qed.

(** *** Directories that give the same summary *)

Lemma summary_vars_ext (fs fs' : store) (days : list string) :
  (forall x v, In x days -> summary_day_vars fs x v = summary_day_vars fs' x v) ->
  summary_vars_of fs days = summary_vars_of fs' days.
Proof.
  intros H. unfold summary_vars_of. apply fold_left_ext_in.
  intros x Hx v. now apply H.
Qed.

Lemma api_summary_response (h : host) (fuel : nat) (fs fs' : store)
  (qs qe : option string) :
  (forall days, summary_vars_of fs days = summary_vars_of fs' days) ->
  option_map fst (api_summary h fuel fs qs qe)
  = option_map fst (api_summary h fuel fs' qs qe).
Proof.
  intros H. destruct qs as [s |], qe as [e |]; try reflexivity.
  destruct (missing (Some s) || missing (Some e)) eqn:Hm.
  { unfold api_summary. now rewrite Hm. }
  apply orb_false_iff in Hm. destruct Hm as [Hs He].
  destruct (generateDateRange h fuel s e) as [[msg | days] |] eqn:Hr.
  - unfold api_summary. now rewrite Hs, He, Hr.
  - rewrite (api_summary_run h fuel fs s e days Hs He Hr).
    rewrite (api_summary_run h fuel fs' s e days Hs He Hr).
    cbn [option_map fst]. now rewrite (H days).
  - unfold api_summary. now rewrite Hs, He, Hr.
Qed.

(** *** Status codes *)

Lemma only_ok_bind {S A B} (m : M S A) (k : A -> M S (response B)) :
  (forall a, only_ok (k a)) -> only_ok (bind m k).
Proof.
  intros H s r s'. rewrite bind_run.
  destruct (m s) as [[a | err] s1]; [apply H | discriminate].
Qed.

Lemma only_ok_ret {S A} (a : A) : only_ok (ret (S := S) (Ok a)).
Proof. intros s r s' [= <- _]. eauto. Qed.

Lemma handle_status {S A} (init : S) (m : M S (response A)) :
  only_ok m ->
  match fst (handle init m) with
  | Ok _ => True
  | Failed status error => status = 500 /\ error = "Internal server error"
  end.
Proof.
  intros H. unfold handle.
  destruct (m (init, [])) as [[r | err] [s t]] eqn:E; cbn [fst].
  - destruct (H _ _ _ E) as [a ->]. exact I.
  - now split.
Qed.

Lemma only_ok_summary (fs : store) (inRange : range) :
  only_ok (emit request_log ;;; summary_from fs inRange).
Proof.
  unfold summary_from. repeat (apply only_ok_bind; intros ?). apply only_ok_ret.
Qed.

Lemma only_ok_trends (fs : store) (inRange : range) :
  only_ok (trends_from fs inRange).
Proof.
  unfold trends_from. repeat (apply only_ok_bind; intros ?). apply only_ok_ret.
Qed.

Lemma only_ok_coverage_usage (fs : store) (d : string) :
  only_ok (coverage_usage_body fs d).
Proof.
  unfold coverage_usage_body. repeat (apply only_ok_bind; intros ?).
  apply only_ok_ret.
Qed.

Lemma only_ok_apis (fs : store) (d : string) : only_ok (apis_body fs d).
Proof.
  unfold apis_body. repeat (apply only_ok_bind; intros ?). apply only_ok_ret.
Qed.

(** *** Inherited names *)

Lemma get_inherited (cov : coverage_map) (n : string) :
  ~ In n (Object_keys cov) -> Object_prototype_member n = true ->
  get cov n = Some inherited_member.
Proof.
  intros Hn Hm. unfold get. rewrite Hm.
  replace (get_own cov n) with (@None CoverageRecord); [reflexivity |].
  symmetry. induction cov as [| [k v] cov IH]; [reflexivity |].
  cbn in Hn |- *. destruct (String.eqb_spec k n) as [-> | _].
  - exfalso. apply Hn. now left.
  - apply IH. intros H. apply Hn. now right.
Qed.

(** *** Claims *)

(** C1.  The scenario of the specification: day 1 has coverage
    [{A: {100, 50}}] and usage [{A, 10}], day 2 has no coverage file and usage
    [{A, 5}].  [/api/summary] answers [totalAPIs = 1], [avgCoverage = 50] and
    [totalCalls = 10]: the usage of day 2 is read and pushed to [allUsage],
    and never counted, because the loop of [calculateSummary] runs over the
    indices of [allCoverage], which has one element.  With a coverage file
    for day 2 that holds the empty object, the answer is the one the
    specification gives, [totalCalls = 15].  With the coverage file on day 2
    only, the coverage of day 2 is paired with the usage of day 1, and the
    usage of day 2 is never counted: [totalCalls = 10] again. *)
Theorem C1_summary_scenario (fuel : nat) :
  api_summary utc (3 + fuel) two_days (Some "2024-01-01") (Some "2024-01-02")
  = Some (Ok {| totalAPIs := 1; avgCoverage := 50%float; totalCalls := 10%float |},
          [request_log;
           ExistsSync Coverage "2024-01-01"; ReadFileSync Coverage "2024-01-01";
           ExistsSync Usage "2024-01-01"; ReadFileSync Usage "2024-01-01";
           ExistsSync Coverage "2024-01-02";
           ExistsSync Usage "2024-01-02"; ReadFileSync Usage "2024-01-02"])
  /\ option_map fst
       (api_summary utc (3 + fuel) two_days_empty_object
          (Some "2024-01-01") (Some "2024-01-02"))
     = Some (Ok {| totalAPIs := 1; avgCoverage := 50%float;
                   totalCalls := 15%float |})
  /\ option_map fst
       (api_summary utc (3 + fuel) coverage_on_second_day
          (Some "2024-01-01") (Some "2024-01-02"))
     = Some (Ok {| totalAPIs := 1; avgCoverage := 50%float;
                   totalCalls := 10%float |}).
Proof.
  rewrite !(api_summary_more_fuel utc 3 fuel _ _ _
              (Dates ["2024-01-01"; "2024-01-02"]))
    by (vm_compute; reflexivity).
  repeat split; vm_compute; reflexivity.
Qed.

(** C2.  Five days, the coverage file of the third malformed.
    [/api/summary] goes on: it warns for that day, pushes neither file of the
    day and answers from the other four.  [/api/coverage-trends] over the
    range, and [/api/coverage-usage] and [/api/apis] on that day, have no
    [try] around [JSON.parse]: they answer 500. *)
Theorem C2_malformed_coverage (fuel : nat) :
  (exists t,
     api_summary utc (6 + fuel) third_day_malformed
       (Some "2024-01-01") (Some "2024-01-05")
     = Some (Ok {| totalAPIs := 1; avgCoverage := 50%float;
                   totalCalls := 27%float |}, t)
     /\ In (ConsoleWarn "2024-01-03" "Unexpected end of JSON input") t)
  /\ option_map fst
       (api_coverage_trends utc (6 + fuel) third_day_malformed
          (Some "2024-01-01") (Some "2024-01-05"))
     = Some (Failed 500 "Internal server error")
  /\ api_coverage_usage third_day_malformed (Some "2024-01-03")
     = (Failed 500 "Internal server error",
        [ExistsSync Coverage "2024-01-03"; ReadFileSync Coverage "2024-01-03";
         ConsoleError (SyntaxError "Unexpected end of JSON input")])
  /\ api_apis third_day_malformed (Some "2024-01-03")
     = (Failed 500 "Internal server error",
        [ExistsSync Coverage "2024-01-03"; ReadFileSync Coverage "2024-01-03";
         ConsoleError (SyntaxError "Unexpected end of JSON input")]).
Proof.
  assert (Hr : generateDateRange utc 6 "2024-01-01" "2024-01-05"
               = Some (Dates ["2024-01-01"; "2024-01-02"; "2024-01-03";
                              "2024-01-04"; "2024-01-05"]))
    by (vm_compute; reflexivity).
  rewrite (api_summary_more_fuel utc 6 fuel _ _ _ _ Hr).
  rewrite (api_coverage_trends_more_fuel utc 6 fuel _ _ _ _ Hr).
  split; [| repeat split; vm_compute; reflexivity].
  eexists. split; [vm_compute; reflexivity |].
  cbn. repeat first [left; reflexivity | right].
Qed.

(** C3.  On a host that keeps US Eastern time, [generateDateRange] steps
    with [setDate] on the local calendar and prints with [toISOString] in
    UTC: across the start of daylight saving time (2024-03-10) the range
    2024-03-09..2024-03-12 holds 2024-03-10 twice and stops short of
    2024-03-12; across its end (2024-11-03) the range 2024-11-02..2024-11-04
    has two days, not three. *)
Theorem C3_range_across_dst (fuel : nat) :
  generateDateRange us_eastern (5 + fuel) "2024-03-09" "2024-03-12"
  = Some (Dates ["2024-03-09"; "2024-03-10"; "2024-03-10"; "2024-03-11"])
  /\ generateDateRange us_eastern (5 + fuel) "2024-11-02" "2024-11-04"
     = Some (Dates ["2024-11-02"; "2024-11-03"]).
Proof.
  split; apply generateDateRange_more_fuel; vm_compute; reflexivity.
Qed.

(** C4.  A coverage record whose [full_size] is zero does not make any of the
    four handlers fail: the division yields NaN or an infinity, not an
    exception.  Whenever the range expands and the files in play parse, all
    four answer 200, and the record of size zero is among what
    [/api/coverage-trends], [/api/coverage-usage] and [/api/apis] computed. *)
Theorem C4_zero_size_does_not_crash (h : host) (fuel : nat) (fs : store)
  (s e d n : string) (days : list string) (api : CoverageRecord) :
  missing (Some s) = false -> missing (Some e) = false ->
  missing (Some d) = false ->
  generateDateRange h fuel s e = Some (Dates days) ->
  objects fs ->
  (forall d', In d' days -> parses fs d') ->
  In d days ->
  In (n, api) (coverage_of_day fs d) ->
  is_zero (ToNumber (full_size api)) = true ->
  (exists r t, api_summary h fuel fs (Some s) (Some e) = Some (Ok r, t))
  /\ (exists r t,
        api_coverage_trends h fuel fs (Some s) (Some e) = Some (Ok r, t)
        /\ In d (map date r))
  /\ (exists r t,
        api_coverage_usage fs (Some d) = (Ok r, t)
        /\ In (scatter_point (usage_of_day fs d) n api) r)
  /\ (exists r t,
        api_apis fs (Some d) = (Ok r, t)
        /\ In (row (usage_of_day fs d) n api) r).
Proof.
  intros Hs He Hd Hr Hobj Hp Hin Hapi _.
  split; [| split; [| split]].
  - rewrite (api_summary_run h fuel fs s e days Hs He Hr). eauto.
  - destruct (api_coverage_trends_run h fuel fs s e days Hs He Hr Hobj)
      as [t Ht]; [intros d' Hd'; apply (Hp d' Hd') |].
    eexists. exists t. split; [exact Ht |].
    rewrite trend_points_dates, filter_In. split; [exact Hin |].
    now destruct (coverage_of_day fs d).
  - destruct (api_coverage_usage_run fs d Hd Hobj (Hp d Hin)) as [t Ht].
    eexists. exists t. split; [exact Ht |].
    apply (in_map (fun na => scatter_point (usage_of_day fs d) (fst na) (snd na))
             _ (n, api) Hapi).
  - destruct (api_apis_run fs d Hd Hobj (Hp d Hin)) as [t Ht].
    eexists. exists t. split; [exact Ht |].
    apply (in_map (fun na => row (usage_of_day fs d) (fst na) (snd na))
             _ (n, api) Hapi).
Qed.

Lemma C4_witness :
  percent (coverage_of 0 0) = NaN /\ percent (coverage_of 0 7) = Infinity
  /\ (exists r t,
        api_summary utc 3 zero_size (Some "2024-01-01") (Some "2024-01-02")
        = Some (Ok r, t))
  /\ (exists r t,
        api_coverage_trends utc 3 zero_size (Some "2024-01-01") (Some "2024-01-02")
        = Some (Ok r, t) /\ In "2024-01-01" (map date r))
  /\ (exists r t,
        api_coverage_usage zero_size (Some "2024-01-01") = (Ok r, t)
        /\ In {| name := "A"; coverage := NaN; usage := pos_zero |} r)
  /\ (exists r t,
        api_apis zero_size (Some "2024-01-01") = (Ok r, t)
        /\ In (row (usage_of_day zero_size "2024-01-01") "A" (coverage_of 0 0)) r).
Proof.
  split; [reflexivity |]. split; [reflexivity |].
  apply (C4_zero_size_does_not_crash utc 3 zero_size
           "2024-01-01" "2024-01-02" "2024-01-01" "A"
           ["2024-01-01"; "2024-01-02"] (coverage_of 0 0) eq_refl eq_refl eq_refl).
  - vm_compute. reflexivity.
  - apply directory_objects. repeat constructor; cbn; intuition discriminate.
  - intros d [<- | [<- | []]]; split; intros m; vm_compute; discriminate.
  - now left.
  - now left.
  - reflexivity.
Defined.



(** C6.  When an endpoint does not parse, [generateDateRange] returns (does
    not throw) an [Error] object, the [for ... of] over it throws a
    [TypeError], and the handler answers 500 "Internal server error", the
    answer of any unexpected failure, after no file-system call.  A
    missing endpoint, by contrast, is answered 400 with its own message. *)
Theorem C6_invalid_date_is_internal_error (h : host) (fuel : nat) (fs : store)
  (s e : string) :
  missing (Some s) = false -> missing (Some e) = false ->
  new_Date h s = None \/ new_Date h e = None ->
  generateDateRange h fuel s e = Some (ErrorObject "Invalid start or end date")
  /\ api_summary h fuel fs (Some s) (Some e)
     = Some (Failed 500 "Internal server error",
             [request_log; ConsoleError (TypeError "inRange is not iterable")])
  /\ api_coverage_trends h fuel fs (Some s) (Some e)
     = Some (Failed 500 "Internal server error",
             [ConsoleError (TypeError "inRange is not iterable")])
  /\ existsb is_io
       [request_log; ConsoleError (TypeError "inRange is not iterable")]
     = false
  /\ api_summary h fuel fs None (Some e)
     = Some (Failed 400 "Missing start or end date", [request_log]).
Proof.
  intros Hs He Hbad.
  assert (Hr : generateDateRange h fuel s e
               = Some (ErrorObject "Invalid start or end date")).
  { unfold generateDateRange.
    destruct Hbad as [-> | ->]; [reflexivity |].
    now destruct (new_Date h s). }
  split; [exact Hr |].
  unfold api_summary, api_coverage_trends. rewrite Hs, He, Hr.
  repeat split; reflexivity.
Qed.

Lemma C6_witness :
  new_Date utc "not-a-date" = None
  /\ api_summary utc 3 two_days (Some "not-a-date") (Some "2024-01-02")
     = Some (Failed 500 "Internal server error",
             [request_log; ConsoleError (TypeError "inRange is not iterable")]).
Proof.
  split; [reflexivity |].
  apply (C6_invalid_date_is_internal_error utc 3 two_days
           "not-a-date" "2024-01-02" eq_refl eq_refl).
  left. reflexivity.
Defined.

(** C7.  Over a range whose coverage files all parse,
    [/api/coverage-trends] answers one point per day whose coverage object is
    not empty, in the order of the range: the day, and the sum of
    [(covered_lines / full_size) * 100] over the APIs of the day divided by
    their number.  A day whose coverage file is absent or holds an empty
    object has no point, whatever its usage file holds.  Over a range with a
    malformed coverage file the answer is 500 "Internal server error": no
    day of the range gets a point. *)
Theorem C7_trends_every_range (h : host) (fuel : nat) (fs : store)
  (s e : string) (days : list string) :
  missing (Some s) = false -> missing (Some e) = false ->
  generateDateRange h fuel s e = Some (Dates days) ->
  objects fs ->
  ((forall d, In d days -> forall m, coverage_file fs d <> Some (Malformed m)) ->
   exists pts t,
     api_coverage_trends h fuel fs (Some s) (Some e) = Some (Ok pts, t)
     /\ pts
        = map (fun d =>
                 {| date := d;
                    trend_avgCoverage :=
                      mean (map (fun na =>
                                   ((ToNumber (covered_lines (snd na))
                                     / ToNumber (full_size (snd na))) * 100)%float)
                              (coverage_of_day fs d)) |})
            (filter (fun d => negb (Nat.eqb (List.length (coverage_of_day fs d)) 0))
               days)
     /\ (forall d, coverage_of_day fs d = [] -> ~ In d (map date pts)))
  /\ (forall d m,
        In d days -> coverage_file fs d = Some (Malformed m) ->
        exists t,
          api_coverage_trends h fuel fs (Some s) (Some e)
          = Some (Failed 500 "Internal server error", t)).
Proof.
  intros Hs He Hr Hobj. split.
  - intros Hok.
    destruct (api_coverage_trends_run h fuel fs s e days Hs He Hr Hobj Hok)
      as [t Ht].
    exists (trend_points fs days), t. split; [exact Ht |].
    split; [apply trend_points_explicit |].
    intros d Hd. rewrite trend_points_dates, filter_In, Hd. cbn.
    intros [_ H]. discriminate.
  - intros d m Hin Hd.
    destruct (first_malformed fs days d m Hin Hd)
      as (before & d' & m' & after & Hdays & Hok & Hbad).
    subst days. eexists.
    apply (api_coverage_trends_abort h fuel fs s e d' m' before after
             Hs He Hr Hobj Hok Hbad).
Qed.

Lemma C7_witness :
  usage_of_day two_days "2024-01-02" <> []
  /\ (exists t,
        api_coverage_trends utc 3 two_days (Some "2024-01-01") (Some "2024-01-02")
        = Some (Ok [{| date := "2024-01-01"; trend_avgCoverage := 50%float |}], t))
  /\ (exists t,
        api_coverage_trends utc 6 third_day_malformed
          (Some "2024-01-01") (Some "2024-01-05")
        = Some (Failed 500 "Internal server error", t)).
Proof.
  split; [vm_compute; discriminate |]. split.
  - destruct (C7_trends_every_range utc 3 two_days "2024-01-01" "2024-01-02"
                ["2024-01-01"; "2024-01-02"] eq_refl eq_refl) as [H _].
    + vm_compute. reflexivity.
    + apply directory_objects. repeat constructor. intros [].
    + destruct H as (pts & t & Ht & Hpts & _).
      * intros d [<- | [<- | []]] m; vm_compute; discriminate.
      * exists t. rewrite Ht, Hpts. vm_compute. reflexivity.
  - destruct (C7_trends_every_range utc 6 third_day_malformed
                "2024-01-01" "2024-01-05"
                ["2024-01-01"; "2024-01-02"; "2024-01-03"; "2024-01-04";
                 "2024-01-05"] eq_refl eq_refl) as [_ H].
    + vm_compute. reflexivity.
    + apply directory_objects. repeat constructor; cbn; intuition discriminate.
    + apply (H "2024-01-03" "Unexpected end of JSON input");
        [cbn; tauto | reflexivity].
Defined.

(** C8.  For a day whose files parse, [/api/apis] answers one row per key of
    the day's coverage object, in the order of the keys, whatever the usage
    file holds: the name, [(covered_lines / full_size) * 100] printed by
    [toFixed(1)] (the nearest tenth when it is finite and below [10 ^ 21]),
    the [apidoc], [full_size] and [covered_lines] of the record, and the
    usage count and the client count of the first usage record of that name,
    both 0 when there is none.  When a file of the day is malformed the
    answer is 500 "Internal server error", and there is no row. *)
Theorem C8_rows_every_query (fs : store) (d : string) :
  missing (Some d) = false -> objects fs ->
  (parses fs d ->
   exists rows t,
     api_apis fs (Some d) = (Ok rows, t)
     /\ map row_name rows = Object_keys (coverage_of_day fs d)
     /\ List.length rows = List.length (Object_keys (coverage_of_day fs d))
     /\ NoDup (map row_name rows)
     /\ Forall2
          (fun na r =>
             let use := usage_of_day fs d in
             let x := ((ToNumber (covered_lines (snd na))
                        / ToNumber (full_size (snd na))) * 100)%float in
             row_name r = fst na
             /\ row_coverage r = toFixed1 x
             /\ rounded_to_tenth x (row_coverage r)
             /\ row_apidoc r = apidoc (snd na)
             /\ fullSize r = full_size (snd na)
             /\ coveredLines r = covered_lines (snd na)
             /\ (no_match use (fst na) ->
                 row_usage r = pos_zero /\ totalClients r = pos_zero)
             /\ (forall u, first_match use (fst na) u ->
                           row_usage r = Number (usage_count u)
                           /\ totalClients r = Number (total_clients u)))
          (coverage_of_day fs d) rows)
  /\ (~ parses fs d ->
      exists t,
        api_apis fs (Some d) = (Failed 500 "Internal server error", t)).
Proof.
  intros Hd Hobj. split.
  - intros Hp.
    destruct (api_apis_run fs d Hd Hobj Hp) as [t Ht].
    eexists. exists t. split; [exact Ht |].
    assert (Hn : map row_name
                   (map (fun na => row (usage_of_day fs d) (fst na) (snd na))
                      (coverage_of_day fs d))
                 = Object_keys (coverage_of_day fs d)).
    { rewrite map_map. reflexivity. }
    split; [exact Hn |].
    split; [unfold Object_keys; now rewrite !length_map |].
    split.
    { rewrite Hn. unfold coverage_of_day.
      destruct (coverage_file fs d) as [[m | cov] |] eqn:E;
        [constructor | apply (Hobj d cov E) | constructor]. }
    generalize (coverage_of_day fs d) as cov.
    induction cov as [| [n api] cov IH]; cbn [map]; constructor; [| exact IH].
    cbn [fst snd]. unfold row. cbn [row_name row_coverage row_usage totalClients
      row_apidoc fullSize coveredLines].
    repeat split.
    + apply (toFixed1_rounded (percent api)).
    + apply find_usage_none in H. now rewrite H.
    + apply find_usage_none in H. now rewrite H.
    + apply find_usage_some in H. now rewrite H.
    + apply find_usage_some in H. now rewrite H.
  - intros Hn. destruct (single_day_failures fs d Hd Hn) as (t & _ & Ht).
    exists t. exact Ht.
Qed.

Lemma C8_witness :
  (exists rows t,
     api_apis zero_size (Some "2024-01-01") = (Ok rows, t)
     /\ map row_name rows = ["A"; "B"; "C"])
  /\ coverage_of_day usage_malformed "2024-01-01" = [("A", coverage_of 100 50)]
  /\ (exists t,
        api_apis usage_malformed (Some "2024-01-01")
        = (Failed 500 "Internal server error", t)).
Proof.
  split; [| split; [reflexivity |]].
  - destruct (C8_rows_every_query zero_size "2024-01-01" eq_refl) as [H _].
    + apply directory_objects. repeat constructor; cbn; intuition discriminate.
    + destruct H as (rows & t & Ht & Hn & _).
      * split; intros m; vm_compute; discriminate.
      * exists rows, t. split; [exact Ht | exact Hn].
  - destruct (C8_rows_every_query usage_malformed "2024-01-01" eq_refl)
      as [_ H].
    + apply directory_objects. repeat constructor. intros [].
    + apply H. intros [_ Hu].
      apply (Hu "Unexpected end of JSON input"). reflexivity.
Defined.

(** C9.  Over a range in which every day is missing both files,
    [/api/summary] answers [{ totalAPIs: 0, avgCoverage: 0, totalCalls: 0 }].
    When start is after end, [generateDateRange] returns the empty array
    (not the [Error] object) and the answer is the same zero summary. *)
Theorem C9_summary_of_nothing (h : host) (fuel : nat) (fs : store)
  (s e : string) :
  missing (Some s) = false -> missing (Some e) = false ->
  (forall days,
     generateDateRange h fuel s e = Some (Dates days) ->
     (forall d, In d days ->
                coverage_file fs d = None /\ usage_file fs d = None) ->
     exists t,
       api_summary h fuel fs (Some s) (Some e) = Some (Ok zero_summary, t))
  /\
  (forall startDate endDate,
     new_Date h s = Some startDate -> new_Date h e = Some endDate ->
     endDate < startDate -> (0 < fuel)%nat ->
     generateDateRange h fuel s e = Some (Dates [])
     /\ api_summary h fuel fs (Some s) (Some e)
        = Some (Ok zero_summary, [request_log])).
Proof.
  intros Hs He. split.
  - intros days Hr Hd.
    rewrite (api_summary_run h fuel fs s e days Hs He Hr).
    rewrite (summary_vars_no_coverage fs days); [cbn; eauto |].
    intros d Hin. left. apply Hd, Hin.
  - intros ts te Hts Hte Hlt Hfuel.
    assert (Hr : generateDateRange h fuel s e = Some (Dates [])).
    { unfold generateDateRange. rewrite Hts, Hte.
      destruct fuel as [| fuel]; [lia |]. cbn [range_loop].
      destruct (ts <=? te) eqn:E; [apply Z.leb_le in E; lia | reflexivity]. }
    split; [exact Hr |].
    unfold api_summary. rewrite Hs, He, Hr. reflexivity.
Qed.

Lemma C9_witness :
  (exists t,
     api_summary utc 3 empty_directory (Some "2024-01-01") (Some "2024-01-02")
     = Some (Ok zero_summary, t))
  /\ generateDateRange utc 1 "2024-01-02" "2024-01-01" = Some (Dates [])
  /\ api_summary utc 1 usage_only (Some "2024-01-02") (Some "2024-01-01")
     = Some (Ok zero_summary, [request_log]).
Proof.
  split.
  - apply (proj1 (C9_summary_of_nothing utc 3 empty_directory
                    "2024-01-01" "2024-01-02" eq_refl eq_refl)
             ["2024-01-01"; "2024-01-02"]); [vm_compute; reflexivity |].
    intros d _. split; reflexivity.
  - apply (proj2 (C9_summary_of_nothing utc 1 usage_only
                    "2024-01-02" "2024-01-01" eq_refl eq_refl)
             1704153600000 1704067200000);
      [vm_compute; reflexivity | vm_compute; reflexivity | lia | lia].
Defined.

(** C10.  Whenever no coverage resource is loaded for any day of the range
    (each day's coverage file is absent or malformed), [/api/summary] answers
    [{ totalAPIs: 0, avgCoverage: 0, totalCalls: 0 }], whatever the usage
    files of the range hold. *)
Theorem C10_summary_without_coverage (h : host) (fuel : nat) (fs : store)
  (s e : string) (days : list string) :
  missing (Some s) = false -> missing (Some e) = false ->
  generateDateRange h fuel s e = Some (Dates days) ->
  (forall d, In d days -> no_coverage fs d) ->
  exists t,
    api_summary h fuel fs (Some s) (Some e) = Some (Ok zero_summary, t).
Proof.
  intros Hs He Hr Hd.
  rewrite (api_summary_run h fuel fs s e days Hs He Hr).
  rewrite (summary_vars_no_coverage fs days Hd). cbn. eauto.
Qed.

Lemma C10_witness :
  (forall d, In d ["2024-01-01"; "2024-01-02"] ->
             coverage_file usage_only d = None /\
             exists use, usage_file usage_only d = Some (Json use) /\ use <> []) /\
  exists t,
    api_summary utc 3 usage_only (Some "2024-01-01") (Some "2024-01-02")
    = Some (Ok zero_summary, t).
Proof.
  split.
  - intros d [<- | [<- | []]]; (split; [reflexivity |]);
      eexists; (split; [reflexivity | discriminate]).
  - apply (C10_summary_without_coverage utc 3 usage_only
             "2024-01-01" "2024-01-02" ["2024-01-01"; "2024-01-02"]);
      [reflexivity | reflexivity | vm_compute; reflexivity |].
    intros d [<- | [<- | []]]; left; reflexivity.
Defined.

(** X1.  On a host whose local time keeps a constant offset from UTC, for
    two days of the calendar given as [YYYY-MM-DD] with start not after end,
    [generateDateRange] returns the keys of the consecutive days from start
    to end (each the day after the one before, across the ends of months,
    years and leap Februaries): (end - start in days) + 1 of them, the first
    start and the last end, strictly ascending as strings, without
    duplicates. *)
Theorem X1_range_fixed_offset (off : Z) (other : string -> time_value)
  (s e : string) (a b : civil) (fuel : nat) :
  parse_ymd s = Some a -> parse_ymd e = Some b ->
  day_number a <= day_number b ->
  (S (Z.to_nat (day_number b - day_number a)) < fuel)%nat ->
  let n := S (Z.to_nat (day_number b - day_number a)) in
  let keys := map day_key (calendar_days n a) in
  generateDateRange (fixed_offset off other) fuel s e = Some (Dates keys)
  /\ Z.of_nat (List.length keys) = day_number b - day_number a + 1
  /\ hd_error keys = Some s
  /\ last keys ""%string = e
  /\ StronglySorted String_as_OT.lt keys
  /\ NoDup keys.
Proof.
  intros Hs He Hab Hfuel n keys.
  destruct (parse_ymd_spec s a Hs) as (Hya & Hva & Hka).
  destruct (parse_ymd_spec e b He) as (Hyb & Hvb & Hkb).
  destruct (calendar_days_keys b Hvb ltac:(lia) n a Hva ltac:(lia))
    as [Hkeys Hsorted]; [subst n; lia |].
  assert (Hss : StronglySorted String_as_OT.lt keys).
  { apply Sorted_StronglySorted; [| exact Hsorted].
    intros x y z. apply String_as_OT.lt_trans. }
  split; [| split; [| split; [| split; [| split]]]].
  - unfold generateDateRange, new_Date, parse. rewrite Hs, He.
    destruct a as [[ya ma] da], b as [[yb mb] db].
    change (MakeDay ya (ma - 1) da) with (day_number (ya, ma, da)).
    change (MakeDay yb (mb - 1) db) with (day_number (yb, mb, db)).
    destruct (day_number_within _ _ _ Hva) as [Ea Wa].
    destruct (day_number_within _ _ _ Hvb) as [Eb Wb].
    cbn [fst] in Hya, Hyb.
    pose proof (DayFromYear_mono 0 ya ltac:(lia)) as L1.
    pose proof (DayFromYear_mono (yb + 1) 10000 ltac:(lia)) as L2.
    pose proof (DayFromYear_step yb) as L3.
    change (DayFromYear 0) with (-719528) in L1.
    change (DayFromYear 10000) with 2932897 in L2.
    unfold MakeDate, TimeClip. rewrite !Z.add_0_r.
    replace (8640000000000000 <? Z.abs (day_number (ya, ma, da) * msPerDay))
      with false by (symmetry; apply Z.ltb_ge; unfold msPerDay; lia).
    replace (8640000000000000 <? Z.abs (day_number (yb, mb, db) * msPerDay))
      with false by (symmetry; apply Z.ltb_ge; unfold msPerDay; lia).
    rewrite (range_loop_fixed off other (day_number (yb, mb, db)) ltac:(lia) n)
      by (subst n; lia).
    cbn [app option_map]. now rewrite Hkeys.
  - subst keys. rewrite length_map, length_calendar_days. subst n. lia.
  - subst keys n. cbn [calendar_days map hd_error]. now rewrite Hka.
  - subst keys n. cbn [calendar_days].
    rewrite (last_map_cons day_key _ a ""%string a).
    change (a :: calendar_days (Z.to_nat (day_number b - day_number a)) (next_day a))
      with (calendar_days (S (Z.to_nat (day_number b - day_number a))) a).
    rewrite (calendar_days_last b Hvb _ a a Hva) by lia. exact Hkb.
  - exact Hss.
  - apply sorted_keys_nodup, Hss.
Qed.

Lemma X1_witness :
  generateDateRange utc 4 "2024-02-28" "2024-03-01"
  = Some (Dates ["2024-02-28"; "2024-02-29"; "2024-03-01"]).
Proof.
  apply (X1_range_fixed_offset 0 (fun _ => None) "2024-02-28" "2024-03-01"
           (2024, 2, 28) (2024, 3, 1) 4 eq_refl eq_refl);
    [vm_compute; discriminate | vm_compute; lia].
Defined.

(** X2.  [/api/summary] absorbs a malformed file.  A day whose coverage file
    is malformed counts as a day with neither file: the response is the one
    of the directory without the two files of that day (its usage file is
    not counted).  A day whose usage file alone is malformed counts as a day
    with no usage file.  Either way the day is warned about when it is in
    the range. *)
Theorem X2_summary_absorbs_malformed (h : host) (fuel : nat) (fs : store)
  (qs qe : option string) (d m : string) :
  (coverage_file fs d = Some (Malformed m) ->
   option_map fst (api_summary h fuel fs qs qe)
   = option_map fst (api_summary h fuel (without_day d fs) qs qe))
  /\ ((forall m', coverage_file fs d <> Some (Malformed m')) ->
      usage_file fs d = Some (Malformed m) ->
      option_map fst (api_summary h fuel fs qs qe)
      = option_map fst (api_summary h fuel (without_usage d fs) qs qe))
  /\ (forall s e days,
        qs = Some s -> qe = Some e ->
        missing qs = false -> missing qe = false ->
        generateDateRange h fuel s e = Some (Dates days) ->
        In d days ->
        coverage_file fs d = Some (Malformed m)
        \/ ((forall m', coverage_file fs d <> Some (Malformed m'))
            /\ usage_file fs d = Some (Malformed m)) ->
        exists r t,
          api_summary h fuel fs qs qe = Some (r, t)
          /\ In (ConsoleWarn d m) t).
Proof.
  split; [| split].
  - intros Hc. apply api_summary_response. intros days.
    apply summary_vars_ext. intros x v _.
    unfold summary_day_vars, without_day. cbn [coverage_file usage_file].
    destruct (String.eqb_spec x d) as [-> | _]; [now rewrite Hc | reflexivity].
  - intros Hc Hu. apply api_summary_response. intros days.
    apply summary_vars_ext. intros x v _.
    unfold summary_day_vars, without_usage. cbn [coverage_file usage_file].
    destruct (String.eqb_spec x d) as [-> | _]; [| reflexivity].
    rewrite Hu. now destruct (coverage_file fs d) as [[m' | cov] |].
  - intros s e days -> -> Hs He Hr Hin Hbad.
    rewrite (api_summary_run h fuel fs s e days Hs He Hr).
    eexists. eexists. split; [reflexivity |].
    right. apply in_flat_map. exists d. split; [exact Hin |].
    unfold summary_day_trace.
    destruct Hbad as [Hc | [Hc Hu]].
    + rewrite Hc. cbn. auto.
    + rewrite Hu. destruct (coverage_file fs d) as [[m' | cov] |];
        [now destruct (Hc m') | |]; apply in_or_app; right; cbn; auto.
Qed.

Lemma X2_witness :
  option_map fst
    (api_summary utc 6 third_day_malformed (Some "2024-01-01") (Some "2024-01-05"))
  = option_map fst
      (api_summary utc 6 (without_day "2024-01-03" third_day_malformed)
         (Some "2024-01-01") (Some "2024-01-05"))
  /\ exists r t,
       api_summary utc 6 third_day_malformed (Some "2024-01-01") (Some "2024-01-05")
       = Some (r, t)
       /\ In (ConsoleWarn "2024-01-03" "Unexpected end of JSON input") t.
Proof.
  destruct (X2_summary_absorbs_malformed utc 6 third_day_malformed
              (Some "2024-01-01") (Some "2024-01-05")
              "2024-01-03" "Unexpected end of JSON input") as (H1 & _ & H3).
  split; [apply H1; reflexivity |].
  apply (H3 "2024-01-01" "2024-01-05"
           ["2024-01-01"; "2024-01-02"; "2024-01-03"; "2024-01-04"; "2024-01-05"]
           eq_refl eq_refl eq_refl eq_refl);
    [vm_compute; reflexivity | cbn; tauto | left; reflexivity].
Defined.

(** X3.  [/api/coverage-usage] for a day whose files parse answers one point
    per key of the day's coverage object, in the order of the keys: the name,
    the coverage percentage as a Number (not rounded), and the usage count of
    the first usage record of that name converted with [Number], 0 when
    there is none. *)
Theorem X3_coverage_usage_points (fs : store) (d : string) :
  missing (Some d) = false -> objects fs -> parses fs d ->
  exists pts t,
    api_coverage_usage fs (Some d) = (Ok pts, t)
    /\ map name pts = Object_keys (coverage_of_day fs d)
    /\ Forall2
         (fun na p =>
            let use := usage_of_day fs d in
            name p = fst na
            /\ coverage p = percent (snd na)
            /\ (no_match use (fst na) -> usage p = pos_zero)
            /\ (forall u, first_match use (fst na) u ->
                          usage p = Number (usage_count u)))
         (coverage_of_day fs d) pts.
Proof.
  intros Hd Hobj Hp.
  destruct (api_coverage_usage_run fs d Hd Hobj Hp) as [t Ht].
  eexists. exists t. split; [exact Ht |]. split.
  - rewrite map_map. reflexivity.
  - generalize (coverage_of_day fs d) as cov.
    induction cov as [| [n api] cov IH]; cbn [map]; constructor; [| exact IH].
    cbn [fst snd]. unfold scatter_point. cbn [name coverage usage].
    repeat split.
    + intros H. apply find_usage_none in H. now rewrite H.
    + intros u H. apply find_usage_some in H. now rewrite H.
Qed.

Lemma X3_witness :
  exists pts t,
    api_coverage_usage coverage_only (Some "2024-01-01") = (Ok pts, t)
    /\ map name pts = ["A"].
Proof.
  destruct (X3_coverage_usage_points coverage_only "2024-01-01" eq_refl)
    as (pts & t & Ht & Hn & _).
  - apply directory_objects. repeat constructor. intros [].
  - split; intros m; vm_compute; discriminate.
  - exists pts, t. split; [exact Ht | exact Hn].
Defined.

(** X4.  [totalAPIs] is the number of distinct API names over the coverage
    objects handed to [calculateSummary], whatever the usage lists hold. *)
Theorem X4_totalAPIs_distinct_names (allCoverage : list coverage_map)
  (allUsage : list usage_list) :
  totalAPIs (calculateSummary allCoverage allUsage)
  = List.length (nodup string_dec (flat_map Object_keys allCoverage)).
Proof.
  destruct allCoverage as [| cov covs]; [reflexivity |].
  cbn [calculateSummary totalAPIs].
  destruct (collect_names_spec (cov :: covs)) as [H1 H2].
  apply Permutation_length, NoDup_Permutation;
    [exact H1 | apply NoDup_nodup |].
  intros x. now rewrite H2, nodup_In.
Qed.

(** X5.  [calculateSummary] pairs by index and loops over the indices of
    [allCoverage]: the usage lists at the positions from
    [allCoverage.length] on are never read. *)
Theorem X5_usage_beyond_coverage_ignored (allCoverage : list coverage_map)
  (allUsage : list usage_list) :
  calculateSummary allCoverage allUsage
  = calculateSummary allCoverage (firstn (List.length allCoverage) allUsage).
Proof.
  destruct allCoverage as [| cov covs]; [reflexivity |].
  unfold calculateSummary.
  rewrite (summary_loop_ext _ (cov :: covs) allUsage
             (firstn (List.length (cov :: covs)) allUsage)); [reflexivity |].
  intros j n Hj _. now rewrite nth_error_firstn_lt by lia.
Qed.

(** X6.  A usage record whose [api_name] is not a key of any coverage object
    (or is not a string) contributes nothing to the summary: removing such
    records from the usage lists changes no field of the result. *)
Theorem X6_usage_without_coverage_ignored (allCoverage : list coverage_map)
  (allUsage : list usage_list) :
  calculateSummary allCoverage allUsage
  = calculateSummary allCoverage
      (map (filter (named_in (collect_names allCoverage))) allUsage).
Proof.
  destruct allCoverage as [| cov covs]; [reflexivity |].
  unfold calculateSummary.
  rewrite (summary_loop_ext _ (cov :: covs) allUsage
             (map (filter (named_in (collect_names (cov :: covs)))) allUsage));
    [reflexivity |].
  intros j n _ Hn. rewrite nth_error_map. unfold usage_list in *.
  destruct (nth_error allUsage j) as [u |]; cbn [option_map]; [| reflexivity].
  symmetry. now apply find_usage_filter.
Qed.

(** X7.  The two range handlers read only the files of the days of the
    range.  Two directories that agree on the coverage files of those days
    give the same answer and the same trace for [/api/coverage-trends]; when
    they agree on the usage files of those days as well, they give the same
    answer and the same trace for [/api/summary]. *)
Theorem X7_only_range_days_are_read (h : host) (fuel : nat) (fs fs' : store)
  (s e : string) (days : list string) :
  generateDateRange h fuel s e = Some (Dates days) ->
  (forall d, In d days -> coverage_file fs d = coverage_file fs' d) ->
  api_coverage_trends h fuel fs (Some s) (Some e)
  = api_coverage_trends h fuel fs' (Some s) (Some e)
  /\ ((forall d, In d days -> usage_file fs d = usage_file fs' d) ->
      api_summary h fuel fs (Some s) (Some e)
      = api_summary h fuel fs' (Some s) (Some e)).
Proof.
  intros Hr Hc. split.
  - unfold api_coverage_trends. rewrite Hr.
    destruct (missing (Some s) || missing (Some e)); [reflexivity |].
    unfold handle, trends_from, for_of_range. rewrite !bind_run.
    rewrite (for_of_ext days (trends_day fs) (trends_day fs'));
      [reflexivity |].
    intros d Hd. apply trends_day_ext, Hc, Hd.
  - intros Hu. unfold api_summary. rewrite Hr.
    destruct (missing (Some s) || missing (Some e)); [reflexivity |].
    unfold handle, summary_from, for_of_range. rewrite !bind_run.
    destruct (emit request_log ({| allCoverage := []; allUsage := [] |}, []))
      as [[[] | err] s0]; [| reflexivity].
    rewrite !bind_run.
    rewrite (for_of_ext days (summary_day fs) (summary_day fs'));
      [reflexivity |].
    intros d Hd. apply summary_day_ext; [apply Hc | apply Hu]; exact Hd.
Qed.

Lemma X7_witness :
  api_coverage_trends utc 2 two_days (Some "2024-01-01") (Some "2024-01-01")
  = api_coverage_trends utc 2 two_days_empty_object
      (Some "2024-01-01") (Some "2024-01-01")
  /\ api_summary utc 2 two_days (Some "2024-01-01") (Some "2024-01-01")
     = api_summary utc 2 two_days_empty_object
         (Some "2024-01-01") (Some "2024-01-01").
Proof.
  destruct (X7_only_range_days_are_read utc 2 two_days two_days_empty_object
              "2024-01-01" "2024-01-01" ["2024-01-01"]) as [H1 H2].
  - vm_compute. reflexivity.
  - intros d [<- | []]. reflexivity.
  - split; [exact H1 | apply H2]. intros d [<- | []]. reflexivity.
Defined.

(** X8.  A malformed file makes [/api/coverage-usage] and [/api/apis] answer
    500 "Internal server error", with the same trace for both: the coverage
    file is read first, so when it is malformed the usage file is not looked
    at; when the usage file alone is malformed both files have been read.
    The trace ends with the [console.error] of the [SyntaxError].  Hence a
    200 from either handler means that neither file of the day is
    malformed. *)
Theorem X8_single_day_malformed (fs : store) (d : string) :
  missing (Some d) = false ->
  (forall m,
     coverage_file fs d = Some (Malformed m) ->
     let trace :=
       [ExistsSync Coverage d; ReadFileSync Coverage d;
        ConsoleError (SyntaxError m)] in
     api_coverage_usage fs (Some d) = (Failed 500 "Internal server error", trace)
     /\ api_apis fs (Some d) = (Failed 500 "Internal server error", trace))
  /\ (forall m,
        (forall m', coverage_file fs d <> Some (Malformed m')) ->
        usage_file fs d = Some (Malformed m) ->
        let trace :=
          (ExistsSync Coverage d
           :: match coverage_file fs d with
              | Some _ => [ReadFileSync Coverage d]
              | None => []
              end)
          ++ [ExistsSync Usage d; ReadFileSync Usage d;
              ConsoleError (SyntaxError m)] in
        api_coverage_usage fs (Some d)
        = (Failed 500 "Internal server error", trace)
        /\ api_apis fs (Some d) = (Failed 500 "Internal server error", trace))
  /\ ((exists pts, fst (api_coverage_usage fs (Some d)) = Ok pts)
      \/ (exists rows, fst (api_apis fs (Some d)) = Ok rows) ->
      parses fs d).
Proof.
  intros Hd. split; [| split].
  - intros m Hc. unfold api_coverage_usage, api_apis. rewrite Hd.
    unfold handle, coverage_usage_body, apis_body.
    rewrite !bind_run, !load_run, Hc. split; reflexivity.
  - intros m Hc Hu. unfold api_coverage_usage, api_apis. rewrite Hd.
    unfold handle, coverage_usage_body, apis_body.
    rewrite !bind_run, !load_run.
    destruct (coverage_file fs d) as [[m' | cov] |]; [now destruct (Hc m') | |];
      rewrite !bind_run, !load_run, Hu; split; reflexivity.
  - intros Hok.
    destruct (parses_dec fs d) as [Hp | Hn]; [exact Hp |].
    assert (Hnp : ~ parses fs d).
    { destruct Hn as [[m Hc] | [_ [m Hu]]]; intros [H1 H2];
        [now apply (H1 m) | now apply (H2 m)]. }
    destruct (single_day_failures fs d Hd Hnp) as (t & H1 & H2).
    rewrite H1, H2 in Hok. destruct Hok as [[x H] | [x H]]; discriminate.
Qed.

Lemma X8_witness :
  api_coverage_usage third_day_malformed (Some "2024-01-03")
  = (Failed 500 "Internal server error",
     [ExistsSync Coverage "2024-01-03"; ReadFileSync Coverage "2024-01-03";
      ConsoleError (SyntaxError "Unexpected end of JSON input")])
  /\ api_apis usage_malformed (Some "2024-01-01")
     = (Failed 500 "Internal server error",
        [ExistsSync Coverage "2024-01-01"; ReadFileSync Coverage "2024-01-01";
         ExistsSync Usage "2024-01-01"; ReadFileSync Usage "2024-01-01";
         ConsoleError (SyntaxError "Unexpected end of JSON input")]).
Proof.
  split.
  - apply (proj1 (X8_single_day_malformed third_day_malformed "2024-01-03" eq_refl)
             "Unexpected end of JSON input").
    reflexivity.
  - apply (proj1 (proj2 (X8_single_day_malformed usage_malformed "2024-01-01"
                           eq_refl))
             "Unexpected end of JSON input");
      [intros m; vm_compute; discriminate | reflexivity].
Defined.

(** X9.  [/api/coverage-trends] stops at the first malformed coverage file
    of the range: the answer is 500 "Internal server error", the points of
    the days before it are dropped, the days after it are not looked at, and
    the trace ends with the [console.error] of the [SyntaxError]. *)
Theorem X9_trends_abort_at_first_malformed (h : host) (fuel : nat) (fs : store)
  (s e d m : string) (before after : list string) :
  missing (Some s) = false -> missing (Some e) = false ->
  generateDateRange h fuel s e = Some (Dates (before ++ d :: after)) ->
  objects fs ->
  (forall d', In d' before -> forall m', coverage_file fs d' <> Some (Malformed m')) ->
  coverage_file fs d = Some (Malformed m) ->
  api_coverage_trends h fuel fs (Some s) (Some e)
  = Some (Failed 500 "Internal server error",
          flat_map (trends_day_trace fs) before
          ++ [ExistsSync Coverage d; ReadFileSync Coverage d;
              ConsoleError (SyntaxError m)]).
Proof.
  intros Hs He Hr Hobj Hok Hbad. unfold api_coverage_trends.
  rewrite Hs, He, Hr. cbn [orb].
  unfold handle, trends_from, for_of_range. rewrite bind_run, for_of_app.
  rewrite (trends_days_run_trace fs before Hobj Hok).
  cbn [for_of]. rewrite bind_run.
  unfold trends_day at 1. run_M. rewrite Hbad. cbn [app].
  now rewrite <- !app_assoc.
Qed.

Lemma X9_witness :
  api_coverage_trends utc 6 third_day_malformed
    (Some "2024-01-01") (Some "2024-01-05")
  = Some (Failed 500 "Internal server error",
          [ExistsSync Coverage "2024-01-01"; ReadFileSync Coverage "2024-01-01";
           ExistsSync Coverage "2024-01-02"; ReadFileSync Coverage "2024-01-02";
           ExistsSync Coverage "2024-01-03"; ReadFileSync Coverage "2024-01-03";
           ConsoleError (SyntaxError "Unexpected end of JSON input")]).
Proof.
  apply (X9_trends_abort_at_first_malformed utc 6 third_day_malformed
           "2024-01-01" "2024-01-05" "2024-01-03" "Unexpected end of JSON input"
           ["2024-01-01"; "2024-01-02"] ["2024-01-04"; "2024-01-05"]
           eq_refl eq_refl).
  - vm_compute. reflexivity.
  - apply directory_objects. repeat constructor; cbn; intuition discriminate.
  - intros d [<- | [<- | []]] m; vm_compute; discriminate.
  - reflexivity.
Defined.

(** X10.  Over a range of one day whose coverage object is not empty, the
    [avgCoverage] of [/api/summary] is the [avgCoverage] of the single point
    of [/api/coverage-trends], and [totalAPIs] is the number of keys of the
    object. *)
Theorem X10_single_day_average (h : host) (fuel : nat) (fs : store)
  (s e d : string) :
  missing (Some s) = false -> missing (Some e) = false ->
  generateDateRange h fuel s e = Some (Dates [d]) ->
  objects fs ->
  (forall m, coverage_file fs d <> Some (Malformed m)) ->
  coverage_of_day fs d <> [] ->
  exists sm t t',
    api_summary h fuel fs (Some s) (Some e) = Some (Ok sm, t)
    /\ api_coverage_trends h fuel fs (Some s) (Some e)
       = Some (Ok [{| date := d; trend_avgCoverage := avgCoverage sm |}], t')
    /\ totalAPIs sm = List.length (coverage_of_day fs d).
Proof.
  intros Hs He Hr Hobj Hok Hne.
  rewrite (api_summary_run h fuel fs s e [d] Hs He Hr).
  destruct (api_coverage_trends_run h fuel fs s e [d] Hs He Hr Hobj) as [t' ->].
  { intros d' [<- | []]. exact Hok. }
  eexists. eexists. exists t'. split; [reflexivity |].
  unfold summary_vars_of, trend_points. cbn [fold_left flat_map].
  unfold summary_day_vars, coverage_of_day in *.
  destruct (coverage_file fs d) as [[m | cov] |] eqn:E;
    [now destruct (Hok m) | | now destruct Hne].
  pose proof (Hobj d cov E) as Hnd.
  assert (Hsingle : forall U,
            avgCoverage (calculateSummary [cov] U) = mean (map percent (map snd cov))
            /\ totalAPIs (calculateSummary [cov] U) = List.length cov)
    by (intros U; apply calculateSummary_single; assumption).
  destruct (usage_file fs d) as [[m | use] |];
    cbn [push_coverage push_usage allCoverage allUsage app];
    match goal with
    | |- context [calculateSummary [cov] ?U] =>
        destruct (Hsingle U) as [A1 A2]; rewrite A1, A2
    end;
    (destruct cov; [now destruct Hne | split; reflexivity]).
Qed.

Lemma X10_witness :
  exists sm t t',
    api_summary utc 2 zero_size (Some "2024-01-01") (Some "2024-01-01")
    = Some (Ok sm, t)
    /\ api_coverage_trends utc 2 zero_size (Some "2024-01-01") (Some "2024-01-01")
       = Some (Ok [{| date := "2024-01-01"; trend_avgCoverage := avgCoverage sm |}],
               t')
    /\ totalAPIs sm = 3%nat.
Proof.
  apply (X10_single_day_average utc 2 zero_size "2024-01-01" "2024-01-01"
           "2024-01-01" eq_refl eq_refl).
  - vm_compute. reflexivity.
  - apply directory_objects. repeat constructor; cbn; intuition discriminate.
  - intros m. vm_compute. discriminate.
  - vm_compute. discriminate.
Defined.



(** X12.  When every day of the range either has both files, both parsing,
    or pushes nothing, the pairing by index of [calculateSummary] is the
    pairing by day: [/api/summary] answers the summary of the coverage and
    the usage of the same days. *)
Theorem X12_summary_pairs_by_day (h : host) (fuel : nat) (fs : store)
  (s e : string) (days : list string) :
  missing (Some s) = false -> missing (Some e) = false ->
  generateDateRange h fuel s e = Some (Dates days) ->
  (forall d, In d days -> paired fs d = true \/ pushes_nothing fs d) ->
  exists t,
    api_summary h fuel fs (Some s) (Some e)
    = Some (Ok (calculateSummary
                  (map (coverage_of_day fs) (filter (paired fs) days))
                  (map (usage_of_day fs) (filter (paired fs) days))), t).
Proof.
  intros Hs He Hr Hd. rewrite (api_summary_run h fuel fs s e days Hs He Hr).
  unfold summary_vars_of. rewrite (summary_fold_paired fs days Hd).
  cbn [allCoverage allUsage app]. eauto.
Qed.

Lemma X12_witness :
  exists t,
    api_summary utc 3 two_days_empty_object (Some "2024-01-01") (Some "2024-01-02")
    = Some (Ok (calculateSummary
                  [[("A", coverage_of 100 50)]; []]
                  [[usage_of "A" (int 10)]; [usage_of "A" (int 5)]]), t).
Proof.
  apply (X12_summary_pairs_by_day utc 3 two_days_empty_object
           "2024-01-01" "2024-01-02" ["2024-01-01"; "2024-01-02"]
           eq_refl eq_refl); [vm_compute; reflexivity |].
  intros d [<- | [<- | []]]; left; reflexivity.
Defined.

(** X13.  For a usage count written as a non-empty string of decimal digits,
    [parseInt(count, 10)] and [Number(count)] are the same non-negative
    integer: [/api/summary] counts it as [/api/coverage-usage] and
    [/api/apis] report it. *)
Theorem X13_digit_string_counts (s : string) :
  digit_string s ->
  exists v,
    0 <= v
    /\ leading_integer s = Some v
    /\ parseInt10 (JString s) = of_Z v
    /\ Number (JString s) = of_Z v
    /\ or_zero (parseInt10 (JString s)) = or_zero (Number (JString s)).
Proof.
  intros Hds. destruct (digit_string_value s Hds) as (v & n & Ht & Hv & Hn).
  destruct (trim_digit_string s Hds) as [_ Hstart].
  exists v. split; [exact Hv |].
  assert (Hsign : match s with
                  | String "-" r => (true, r)
                  | String "+" r => (false, r)
                  | _ => (false, s)
                  end = (false, s)).
  { destruct Hds as [Hne Hs]. destruct s as [| c0 rest]; [now destruct Hne |].
    cbn [all_digits] in Hs. destruct (digit c0) as [d0 |] eqn:Hd0; [| discriminate].
    exact (sign_of_digit_string c0 rest d0 Hd0). }
  assert (Hp : parseInt10 (JString s) = of_Z v).
  { unfold parseInt10. cbn [ToString]. rewrite Hstart, Hsign, Ht.
    replace (n =? 0) with false by (symmetry; apply Z.eqb_neq; lia).
    symmetry. now apply of_Z_nonneg. }
  assert (Hnum : Number (JString s) = of_Z v).
  { unfold Number, ToNumber. rewrite (StringToNumber_digits s Hds).
    exact (unsigned_decimal_digits s v n Ht Hv Hn). }
  repeat split; [| exact Hp | exact Hnum | now rewrite Hp, Hnum].
  unfold leading_integer. cbv zeta. rewrite Hstart, Hsign, Ht.
  now replace (n =? 0) with false by (symmetry; apply Z.eqb_neq; lia).
Qed.

Lemma X13_witness :
  exists v,
    0 <= v
    /\ leading_integer "42" = Some v
    /\ parseInt10 (JString "42") = of_Z v
    /\ Number (JString "42") = of_Z v
    /\ or_zero (parseInt10 (JString "42")) = or_zero (Number (JString "42")).
Proof.
  apply (X13_digit_string_counts "42"). split; [discriminate | reflexivity].
Defined.

(** X14.  On any host, daylight saving time included: when start is a valid
    [YYYY-MM-DD] date and is not after end, the array [generateDateRange]
    returns begins with start itself. *)
Theorem X14_range_starts_with_start (h : host) (fuel : nat) (s e : string)
  (a : civil) (endDate : Z) (dates : list string) :
  parse_ymd s = Some a -> new_Date h e = Some endDate ->
  day_number a * msPerDay <= endDate ->
  generateDateRange h fuel s e = Some (Dates dates) ->
  hd_error dates = Some s.
Proof.
  intros Hs He Hle. unfold generateDateRange.
  rewrite (new_Date_ymd h s a Hs), He.
  destruct (parse_ymd_spec s a Hs) as (Hy & Hv & Hk).
  destruct fuel as [| fuel]; [discriminate |]. cbn [range_loop].
  replace (day_number a * msPerDay <=? endDate) with true
    by (symmetry; now apply Z.leb_le).
  fold (key (day_number a)). rewrite (key_of_day_number a Hv Hy), Hk. cbn [app].
  destruct (setDate h (day_number a * msPerDay)
              (getDate h (day_number a * msPerDay) + 1)) as [t' |].
  - destruct (range_loop h fuel t' endDate [s]) as [r |] eqn:E; [| discriminate].
    destruct (range_loop_prefix _ _ _ _ _ _ E) as [rest ->].
    now intros [= <-].
  - now intros [= <-].
Qed.

Lemma X14_witness :
  generateDateRange us_eastern 5 "2024-03-09" "2024-03-12"
  = Some (Dates ["2024-03-09"; "2024-03-10"; "2024-03-10"; "2024-03-11"])
  /\ hd_error ["2024-03-09"; "2024-03-10"; "2024-03-10"; "2024-03-11"]
     = Some "2024-03-09".
Proof.
  split; [vm_compute; reflexivity |].
  apply (X14_range_starts_with_start us_eastern 5 "2024-03-09" "2024-03-12"
           (2024, 3, 9) (day_number (2024, 3, 12) * msPerDay)).
  - reflexivity.
  - vm_compute. reflexivity.
  - vm_compute. discriminate.
  - vm_compute. reflexivity.
Defined.

(** X15.  The status codes of the four handlers.  A 400 is answered exactly
    when a parameter is absent or empty, with the message of the handler and
    before any file is looked at ([/api/summary] has logged the request by
    then).  When no parameter is missing the answer is a 200 or 500
    "Internal server error", never another failure. *)
Theorem X15_status_codes (h : host) (fuel : nat) (fs : store)
  (qs qe qd : option string) :
  (forall r t,
     api_summary h fuel fs qs qe = Some (r, t) ->
     (missing qs || missing qe = true
      /\ r = Failed 400 "Missing start or end date" /\ t = [request_log])
     \/ (missing qs || missing qe = false
         /\ ((exists sm, r = Ok sm) \/ r = Failed 500 "Internal server error")))
  /\ (forall r t,
        api_coverage_trends h fuel fs qs qe = Some (r, t) ->
        (missing qs || missing qe = true
         /\ r = Failed 400 "Missing start or end date" /\ t = [])
        \/ (missing qs || missing qe = false
            /\ ((exists pts, r = Ok pts)
                \/ r = Failed 500 "Internal server error")))
  /\ ((missing qd = true
       /\ api_coverage_usage fs qd = (Failed 400 "Missing date", [])
       /\ api_apis fs qd = (Failed 400 "Missing date", []))
      \/ (missing qd = false
          /\ ((exists pts, fst (api_coverage_usage fs qd) = Ok pts)
              \/ fst (api_coverage_usage fs qd)
                 = Failed 500 "Internal server error")
          /\ ((exists rows, fst (api_apis fs qd) = Ok rows)
              \/ fst (api_apis fs qd) = Failed 500 "Internal server error"))).
Proof.
  assert (Hst : forall S A (init : S) (m : M S (response A)),
            only_ok m ->
            (exists a, fst (handle init m) = Ok a)
            \/ fst (handle init m) = Failed 500 "Internal server error").
  { intros S A init m Hm. pose proof (handle_status init m Hm) as H.
    destruct (fst (handle init m)) as [a | st er]; [left; eauto |].
    destruct H as [-> ->]. now right. }
  split; [| split].
  - intros r t. unfold api_summary.
    destruct qs as [s |], qe as [e |];
      try (intros [= <- <-]; left; rewrite ?orb_true_r; now repeat split).
    destruct (missing (Some s) || missing (Some e)) eqn:Hm.
    + intros [= <- <-]. left. now repeat split.
    + destruct (generateDateRange h fuel s e) as [inRange |]; [| discriminate].
      intros [= E]. right. split; [reflexivity |].
      destruct (Hst _ _ {| allCoverage := []; allUsage := [] |} _
                  (only_ok_summary fs inRange)) as [[a H] | H];
        rewrite E in H; cbn [fst] in H; [left; eauto | now right].
  - intros r t. unfold api_coverage_trends.
    destruct qs as [s |], qe as [e |];
      try (intros [= <- <-]; left; rewrite ?orb_true_r; now repeat split).
    destruct (missing (Some s) || missing (Some e)) eqn:Hm.
    + intros [= <- <-]. left. now repeat split.
    + destruct (generateDateRange h fuel s e) as [inRange |]; [| discriminate].
      intros [= E]. right. split; [reflexivity |].
      destruct (Hst _ _ (@nil TrendPoint) _ (only_ok_trends fs inRange))
        as [[a H] | H];
        rewrite E in H; cbn [fst] in H; [left; eauto | now right].
  - unfold api_coverage_usage, api_apis. destruct qd as [d |]; [| now left].
    destruct (missing (Some d)) eqn:Hd; [now left |]. right.
    split; [reflexivity |]. split.
    + apply Hst, only_ok_coverage_usage.
    + apply Hst, only_ok_apis.
Qed.

Lemma X15_witness :
  missing (Some "") || missing (Some "2024-01-02") = true
  /\ api_summary utc 3 two_days (Some "") (Some "2024-01-02")
     = Some (Failed 400 "Missing start or end date", [request_log]).
Proof.
  destruct (proj1 (X15_status_codes utc 3 two_days (Some "") (Some "2024-01-02")
                     None)
              (Failed 400 "Missing start or end date") [request_log] eq_refl)
    as [(H & _ & _) | (H & _)]; [| discriminate H].
  split; [exact H | reflexivity].
Defined.

(** X16.  A coverage record whose [full_size] is zero has a percentage that
    is not finite: NaN when [covered_lines] is zero too, an infinity or NaN
    otherwise.  [/api/apis] prints it as "NaN", "Infinity" or "-Infinity". *)
Theorem X16_zero_size_not_finite (use : usage_list) (n : string)
  (api : CoverageRecord) :
  is_zero (ToNumber (full_size api)) = true ->
  is_finite (percent api) = false
  /\ In (row_coverage (row use n api)) ["NaN"; "Infinity"; "-Infinity"]
  /\ (is_zero (ToNumber (covered_lines api)) = true -> percent api = NaN).
Proof.
  intros Hz.
  assert (Hp : Prim2SF (percent api) = S754_nan
               \/ exists s, Prim2SF (percent api) = S754_infinity s).
  { unfold percent.
    destruct (times_100_SF (ToNumber (covered_lines api) / ToNumber (full_size api))%float)
      as [Hn Hi].
    destruct (div_by_zero_SF (ToNumber (covered_lines api)) _ Hz) as [H | [s H]];
      [left; exact (Hn H) | right; exists s; exact (Hi s H)]. }
  destruct (not_finite_SF (percent api)) as [Hn Hi].
  split; [| split].
  - destruct Hp as [H | [s H]]; [apply (Hn H) | apply (Hi s H)].
  - cbn [row row_coverage]. unfold toFixed1, number_to_string.
    destruct Hp as [H | [s H]].
    + destruct (Hn H) as [-> ->]. cbn. auto.
    + destruct (Hi s H) as (-> & -> & -> & -> & ->). destruct s; cbn; auto.
  - intros Hc. unfold percent. rewrite (zero_by_zero _ _ Hc Hz). apply nan_mul_l.
Qed.

Lemma X16_witness :
  is_finite (percent (coverage_of 0 7)) = false
  /\ In (row_coverage (row [] "B" (coverage_of 0 7))) ["NaN"; "Infinity"; "-Infinity"]
  /\ (is_zero (ToNumber (covered_lines (coverage_of 0 7))) = true ->
      percent (coverage_of 0 7) = NaN).
Proof.
  apply (X16_zero_size_not_finite [] "B" (coverage_of 0 7)). reflexivity.
Defined.

(** X17.  NaN is absorbing in both averages.  When a record of a day of the
    range has the percentage NaN (0 / 0, say) and the coverage files of the
    range parse, the [avgCoverage] of [/api/summary] is NaN, whatever the
    other records and days hold, and so is the [avgCoverage] of that day in
    [/api/coverage-trends]. *)
Theorem X17_nan_poisons_averages (h : host) (fuel : nat) (fs : store)
  (s e d n : string) (days : list string) (api : CoverageRecord) :
  missing (Some s) = false -> missing (Some e) = false ->
  generateDateRange h fuel s e = Some (Dates days) ->
  objects fs ->
  (forall d', In d' days -> forall m, coverage_file fs d' <> Some (Malformed m)) ->
  In d days ->
  In (n, api) (coverage_of_day fs d) ->
  percent api = NaN ->
  (exists sm t,
     api_summary h fuel fs (Some s) (Some e) = Some (Ok sm, t)
     /\ avgCoverage sm = NaN)
  /\ (exists pts t,
        api_coverage_trends h fuel fs (Some s) (Some e) = Some (Ok pts, t)
        /\ In {| date := d; trend_avgCoverage := NaN |} pts).
Proof.
  intros Hs He Hr Hobj Hok Hd Hin Hp.
  assert (Hc : coverage_file fs d = Some (Json (coverage_of_day fs d))).
  { unfold coverage_of_day in *.
    destruct (coverage_file fs d) as [[m | cov] |]; [contradiction | reflexivity | contradiction]. }
  split.
  - rewrite (api_summary_run h fuel fs s e days Hs He Hr).
    eexists. eexists. split; [reflexivity |].
    pose proof (summary_vars_coverage fs days d _ Hd Hc) as Hcov.
    apply (calculateSummary_nan _ _ (coverage_of_day fs d) n api).
    + exact Hcov.
    + apply collect_names_spec, in_flat_map. exists (coverage_of_day fs d).
      split; [exact Hcov | apply (keys_of_entry _ n api Hin)].
    + apply get_of_entry; [apply (Hobj d _ Hc) | exact Hin].
    + exact Hp.
  - destruct (api_coverage_trends_run h fuel fs s e days Hs He Hr Hobj Hok) as [t Ht].
    eexists. exists t. split; [exact Ht |].
    unfold trend_points. apply in_flat_map. exists d. split; [exact Hd |].
    destruct (coverage_of_day fs d) as [| x cov] eqn:E; [contradiction |].
    left. f_equal. apply mean_nan. rewrite <- Hp.
    apply (in_map percent), (in_map snd _ (n, api)), Hin.
Qed.

Lemma X17_witness :
  (exists sm t,
     api_summary utc 3 zero_size (Some "2024-01-01") (Some "2024-01-02")
     = Some (Ok sm, t)
     /\ avgCoverage sm = NaN)
  /\ (exists pts t,
        api_coverage_trends utc 3 zero_size (Some "2024-01-01") (Some "2024-01-02")
        = Some (Ok pts, t)
        /\ In {| date := "2024-01-01"; trend_avgCoverage := NaN |} pts).
Proof.
  apply (X17_nan_poisons_averages utc 3 zero_size "2024-01-01" "2024-01-02"
           "2024-01-01" "A" ["2024-01-01"; "2024-01-02"] (coverage_of 0 0)
           eq_refl eq_refl).
  - vm_compute. reflexivity.
  - apply directory_objects. repeat constructor; cbn; intuition discriminate.
  - intros d [<- | [<- | []]] m; vm_compute; discriminate.
  - now left.
  - now left.
  - reflexivity.
Defined.

(** X18.  [calculateSummary] reads [cov[name]] for every name collected over
    the range, and an object answers to the names of [Object.prototype] it
    has no key for.  When an API named like a member of [Object.prototype]
    ([toString], [constructor], ...) is a key of one coverage object and not
    of another one of the range, the inherited member is counted as an API of
    percentage NaN, and [avgCoverage] is NaN. *)
Theorem X18_inherited_name_is_NaN (allCoverage : list coverage_map)
  (allUsage : list usage_list) (cov cov' : coverage_map) (n : string) :
  In cov allCoverage -> In cov' allCoverage ->
  In n (Object_keys cov') -> ~ In n (Object_keys cov) ->
  Object_prototype_member n = true ->
  avgCoverage (calculateSummary allCoverage allUsage) = NaN.
Proof.
  intros Hcov Hcov' Hkey Hnot Hmem.
  apply (calculateSummary_nan allCoverage allUsage cov n inherited_member).
  - exact Hcov.
  - apply collect_names_spec, in_flat_map. exists cov'. now split.
  - now apply get_inherited.
  - reflexivity.
Qed.

Lemma X18_witness :
  avgCoverage
    (calculateSummary
       [[("toString", coverage_of 100 50)]; [("B", coverage_of 100 50)]] [])
  = NaN
  /\ option_map fst
       (api_summary utc 3 prototype_name (Some "2024-01-01") (Some "2024-01-02"))
     = Some (Ok {| totalAPIs := 2; avgCoverage := NaN; totalCalls := pos_zero |}).
Proof.
  split; [| vm_compute; reflexivity].
  apply (X18_inherited_name_is_NaN _ _ [("B", coverage_of 100 50)]
           [("toString", coverage_of 100 50)] "toString").
  - right. now left.
  - now left.
  - now left.
  - intros [H | []]. discriminate H.
  - reflexivity.
Defined.

End Facts.
